(** * SyncFlix: the room server of [app.py], embedded and verified.

    The Flask-SocketIO handlers of [app.py] are translated one by one into
    a small state-and-exception monad over a [World]: the module-level
    dictionaries [rooms] and [room_locks], the messages handed to the
    transport ([emit], [join_room]), and the two sources of input the
    handlers read besides their payload: [time.time()] and
    [secrets.token_urlsafe].  Python floats are IEEE binary64 numbers, so
    they are modelled by Rocq's primitive floats.  A handler runs from its
    first line to its last without another one in between; the [print]
    calls are left out. *)

From Stdlib Require Import PrimFloat.
From stdpp Require Import base option strings list gmap.

Set Warnings "-clear-no-such-hyp".

Local Open Scope string_scope.
Local Open Scope list_scope.

(** ** Data model *)

(** [rooms[room_id]['state']]: the dict [{'time': ..., 'paused': ...}]. *)
Record PlaybackState := mkState {
  time : float;
  paused : bool
}.

(** [rooms[room_id]]: the dict built by [handle_create_room].  A slot holds
    [None] or a connection id ([request.sid], a [str]). *)
Record Room := mkRoom {
  host_sid : option string;
  client_sid : option string;
  video_hash : string;
  filename : string;
  state : PlaybackState;
  last_active : float
}.

Definition with_host_sid (v : option string) (r : Room) : Room :=
  mkRoom v (client_sid r) (video_hash r) (filename r) (state r) (last_active r).
Definition with_client_sid (v : option string) (r : Room) : Room :=
  mkRoom (host_sid r) v (video_hash r) (filename r) (state r) (last_active r).
Definition with_state (v : PlaybackState) (r : Room) : Room :=
  mkRoom (host_sid r) (client_sid r) (video_hash r) (filename r) v (last_active r).
Definition with_last_active (v : float) (r : Room) : Room :=
  mkRoom (host_sid r) (client_sid r) (video_hash r) (filename r) (state r) v.
Definition with_time (v : float) (s : PlaybackState) : PlaybackState :=
  mkState v (paused s).
Definition with_paused (v : bool) (s : PlaybackState) : PlaybackState :=
  mkState (time s) v.

(** The second argument of [emit]. *)
Inductive Payload :=
  | Message (message : string)              (* {'message': m} *)
  | RoomCreated (room_id fname : string)    (* {'room_id': r, 'filename': f} *)
  | StateDict (s : PlaybackState)           (* rooms[room_id]['state'] *)
  | NoData                                  (* emit('ready_for_call', room=...) *)
  | Signal (room_id key : string) (value : option string)
                                            (* {'room_id': r, key: value} *)
  | Chat (sender : string) (message : option string).

(** What a handler hands to Flask-SocketIO, in call order.  [Emit ev d to]
    is [emit(ev, d, room=to)]; an [emit] without [room=] is addressed by
    Flask-SocketIO to [request.sid].  [JoinRoom sid r] is [join_room(r)]
    called in the handler of connection [sid]. *)
Inductive Effect :=
  | Emit (event : string) (data : Payload) (to : string)
  | JoinRoom (sid room : string).

(** ROOM_TTL_SECONDS = 60 * 60 *)
Definition ROOM_TTL_SECONDS : float := 3600%float.

(** The process state.  [clock n] is what the [n]-th call of [time.time()]
    returns and [ticks] counts the calls made; [tokens n] is what the
    [n]-th call of [secrets.token_urlsafe(12)] returns and [draws] counts
    those. *)
Record World := mkWorld {
  rooms : gmap string Room;
  room_locks : gset string;
  outbox : list Effect;
  clock : nat -> float;
  ticks : nat;
  tokens : nat -> string;
  draws : nat
}.

Definition with_rooms (v : gmap string Room) (w : World) : World :=
  mkWorld v (room_locks w) (outbox w) (clock w) (ticks w) (tokens w) (draws w).
Definition with_room_locks (v : gset string) (w : World) : World :=
  mkWorld (rooms w) v (outbox w) (clock w) (ticks w) (tokens w) (draws w).
Definition with_outbox (v : list Effect) (w : World) : World :=
  mkWorld (rooms w) (room_locks w) v (clock w) (ticks w) (tokens w) (draws w).
Definition with_ticks (v : nat) (w : World) : World :=
  mkWorld (rooms w) (room_locks w) (outbox w) (clock w) v (tokens w) (draws w).
Definition with_draws (v : nat) (w : World) : World :=
  mkWorld (rooms w) (room_locks w) (outbox w) (clock w) (ticks w) (tokens w) v.

(** ** The handler monad *)

Inductive Exn := KeyError (key : string).

(** A handler returns, lets an exception escape, or (only the id retry loop
    of [handle_create_room]) is cut off when its fuel is spent. *)
Inductive Outcome (X : Type) :=
  | Returns (x : X)
  | Raises (e : Exn)
  | OutOfFuel.
Arguments Returns {X} x.
Arguments Raises {X} e.
Arguments OutOfFuel {X}.

Definition M (A : Type) : Type := World -> Outcome (A * World).

Definition ret {A} (a : A) : M A := λ w, Returns (a, w).

Definition bind {A B} (m : M A) (f : A -> M B) : M B := λ w,
  match m w with
  | Returns (a, w') => f a w'
  | Raises e => Raises e
  | OutOfFuel => OutOfFuel
  end.

Declare Scope handler_scope.
Delimit Scope handler_scope with handler.
Notation "x ← y ; z" := (bind y (λ x : _, z))
  (at level 20, y at level 100, z at level 200, only parsing) : handler_scope.
Notation "x ;; z" := (bind x (λ _, z))
  (at level 100, z at level 200, only parsing, right associativity)
  : handler_scope.
Local Open Scope handler_scope.

(** Python truthiness of a value that is [None] or a [str]: [Some s] when
    the value is a non-empty string ([if v:]), [None] otherwise
    ([if not v:]). *)
Definition truthy (v : option string) : option string :=
  match v with
  | Some s => if decide (s = "") then None else Some s
  | None => None
  end.

(** [time.time()] *)
Definition time_time : M float := λ w,
  Returns (clock w (ticks w), with_ticks (S (ticks w)) w).

(** [secrets.token_urlsafe(12)] *)
Definition generate_room_id : M string := λ w,
  Returns (tokens w (draws w), with_draws (S (draws w)) w).

(** [emit(event, data, room=to)] *)
Definition emit (event : string) (data : Payload) (to : string) : M unit := λ w,
  Returns (tt, with_outbox (outbox w ++ [Emit event data to]) w).

(** [join_room(room_id)] in the handler of [sid] *)
Definition join_room (sid room_id : string) : M unit := λ w,
  Returns (tt, with_outbox (outbox w ++ [JoinRoom sid room_id]) w).

(** reading the global [rooms] *)
Definition get_rooms : M (gmap string Room) := λ w, Returns (rooms w, w).

(** [rooms[room_id]] *)
Definition rooms_getitem (room_id : string) : M Room := λ w,
  match rooms w !! room_id with
  | Some r => Returns (r, w)
  | None => Raises (KeyError room_id)
  end.

(** [rooms[room_id][k] = v], and [rooms[room_id]['state'][k] = v]: the room
    dict is fetched (KeyError when absent) and mutated in place. *)
Definition rooms_setitem (room_id : string) (f : Room -> Room) : M unit := λ w,
  match rooms w !! room_id with
  | Some r => Returns (tt, with_rooms (<[room_id := f r]> (rooms w)) w)
  | None => Raises (KeyError room_id)
  end.

(** [with room_locks[room_id]: body].  Handlers are run one at a time, so
    the lock is always free; what remains is the dictionary lookup. *)
Definition with_lock {A} (room_id : string) (body : M A) : M A := λ w,
  if decide (room_id ∈ room_locks w) then body w else Raises (KeyError room_id).

(** [for x in l: body(x)] *)
Fixpoint for_each {A} (l : list A) (body : A -> M unit) : M unit :=
  match l with
  | [] => ret tt
  | x :: l' => body x ;; for_each l' body
  end.

(** ** Inbound payloads

    [data.get(k)] is [None] when the key is missing.  The identifiers and
    opaque blobs a client sends are strings; ['time'] and ['paused'] are
    taken already converted by [float(...)] and [bool(...)]. *)
Record CreateData := mkCreate {
  cr_video_hash : option string;
  cr_filename : option string
}.
Record JoinData := mkJoin {
  jn_room_id : option string;
  jn_video_hash : option string
}.
Record ControlData := mkControl {
  ct_room_id : option string;
  ct_action : option string;
  ct_time : option float
}.
Record StateData := mkStateUpdate {
  su_room_id : option string;
  su_time : option float;
  su_paused : option bool
}.
Record SignalData := mkSignal {
  sg_room_id : option string;
  sg_value : option string      (* 'offer', 'answer' or 'candidate' *)
}.
Record ChatData := mkChat {
  ch_room_id : option string;
  ch_message : option string
}.

(** The dict [{'event': ..., 'data': ...}] passed to [route_to_peer]. *)
Record Packet := mkPacket {
  pk_event : string;
  pk_data : Payload
}.

(** ** cleanup_worker *)

(** The scan [for rid, meta in list(rooms.items())] that fills [to_delete]. *)
Fixpoint cleanup_scan (now : float) (items : list (string * Room))
    (to_delete : list string) : list string :=
  match items with
  | [] => to_delete
  | (rid, meta) :: rest =>
      match host_sid meta, client_sid meta with
      | None, None => cleanup_scan now rest (to_delete ++ [rid])
      | _, _ =>
          if (ROOM_TTL_SECONDS <? now - last_active meta)%float
          then cleanup_scan now rest (to_delete ++ [rid])
          else cleanup_scan now rest to_delete
      end
  end.

(** [try: del rooms[rid]; del room_locks[rid] except KeyError: pass] *)
Definition cleanup_delete (rid : string) : M unit := λ w,
  match rooms w !! rid with
  | None => Returns (tt, w)
  | Some _ =>
      Returns (tt, with_room_locks (room_locks w ∖ {[rid]})
                     (with_rooms (delete rid (rooms w)) w))
  end.

(** One turn of the [while True] loop of [cleanup_worker] (the
    [time.sleep(60)] between two turns changes nothing in the state). *)
Definition cleanup_worker : M unit :=
  now ← time_time;
  rs ← get_rooms;
  let to_delete := cleanup_scan now (map_to_list rs) [] in
  for_each to_delete cleanup_delete.

(** ** Socket events *)

(** [while room_id in rooms: room_id = generate_room_id()] *)
Fixpoint retry_room_id (fuel : nat) (room_id : string) : M string :=
  rs ← get_rooms;
  if decide (room_id ∈ dom rs) then
    match fuel with
    | O => λ _, OutOfFuel
    | S fuel' => room_id' ← generate_room_id; retry_room_id fuel' room_id'
    end
  else ret room_id.

Definition handle_create_room (fuel : nat) (sid : string) (data : CreateData)
    : M unit :=
  match truthy (cr_video_hash data), truthy (cr_filename data) with
  | Some vhash, Some fname =>
      room_id ← generate_room_id;
      room_id ← retry_room_id fuel room_id;
      now ← time_time;
      (λ w, Returns (tt, with_rooms
         (<[room_id := mkRoom (Some sid) None vhash fname
                         (mkState 0%float true) now]> (rooms w)) w)) ;;
      (λ w, Returns (tt, with_room_locks ({[room_id]} ∪ room_locks w) w)) ;;
      join_room sid room_id ;;
      emit "room_created" (RoomCreated room_id fname) sid
  | _, _ => emit "error" (Message "Missing video metadata") sid
  end.

Definition handle_join_room (sid : string) (data : JoinData) : M unit :=
  let vhash := jn_video_hash data in
  match truthy (jn_room_id data) with
  | None => emit "error" (Message "Missing room id") sid
  | Some room_id =>
      rs ← get_rooms;
      if decide (room_id ∉ dom rs) then
        emit "error" (Message ("Room " ++ room_id ++ " not found")%string) sid
      else
        with_lock room_id (
          r ← rooms_getitem room_id;
          if decide (client_sid r ≠ None) then
            emit "error" (Message "Room is full") sid
          else
            r ← rooms_getitem room_id;
            if decide (vhash ≠ Some (video_hash r)) then
              emit "error" (Message
                "Video file mismatch! Make sure you selected the same file as the host.")
                sid
            else
              rooms_setitem room_id (with_client_sid (Some sid)) ;;
              now ← time_time;
              rooms_setitem room_id (with_last_active now) ;;
              join_room sid room_id ;;
              r ← rooms_getitem room_id;
              emit "sync_state" (StateDict (state r)) sid ;;
              r ← rooms_getitem room_id;
              let host := host_sid r in
              match truthy host with
              | Some h => emit "peer_joined" (Message "Peer joined") h
              | None => ret tt
              end ;;
              emit "ready_for_call" NoData room_id)
  end.

(** [client if request.sid == host else host] followed by [if target:] *)
Definition peer_target (sid : string) (r : Room) : option string :=
  let host := host_sid r in
  let client := client_sid r in
  if decide (Some sid = host) then client else host.

Definition handle_control (sid : string) (data : ControlData) : M unit :=
  let room_id := ct_room_id data in
  let action := ct_action data in
  rs ← get_rooms;
  let time_val :=
    match ct_time data with
    | Some t => t
    | None =>
        match room_id ≫= (rs !!.) with
        | Some r => time (state r)
        | None => 0%float
        end
    end in
  match truthy room_id with
  | None => ret tt
  | Some room_id =>
      if decide (room_id ∉ dom rs) then ret tt
      else
        with_lock room_id (
          (if decide (action = Some "play") then
             rooms_setitem room_id (λ r, with_state (with_paused false (state r)) r)
           else if decide (action = Some "pause") then
             rooms_setitem room_id (λ r, with_state (with_paused true (state r)) r)
           else if decide (action = Some "seek") then
             rooms_setitem room_id (λ r, with_state (with_time time_val (state r)) r)
           else ret tt) ;;
          rooms_setitem room_id (λ r, with_state (with_time time_val (state r)) r) ;;
          now ← time_time;
          rooms_setitem room_id (with_last_active now) ;;
          r ← rooms_getitem room_id;
          match truthy (peer_target sid r) with
          | Some target =>
              r ← rooms_getitem room_id;
              emit "sync_state" (StateDict (state r)) target
          | None => ret tt
          end)
  end.

Definition handle_state_update (sid : string) (data : StateData) : M unit :=
  let room_id := su_room_id data in
  let time_val := default 0%float (su_time data) in
  let paused_val := default true (su_paused data) in
  rs ← get_rooms;
  match truthy room_id with
  | None => ret tt
  | Some room_id =>
      if decide (room_id ∉ dom rs) then ret tt
      else
        with_lock room_id (
          rooms_setitem room_id (λ r, with_state (with_time time_val (state r)) r) ;;
          rooms_setitem room_id (λ r, with_state (with_paused paused_val (state r)) r) ;;
          now ← time_time;
          rooms_setitem room_id (with_last_active now) ;;
          r ← rooms_getitem room_id;
          match truthy (peer_target sid r) with
          | Some target =>
              r ← rooms_getitem room_id;
              emit "sync_state" (StateDict (state r)) target
          | None => ret tt
          end)
  end.

Definition route_to_peer (sid : string) (room_id : string) (payload : Packet)
    : M unit :=
  rs ← get_rooms;
  if decide (room_id ∉ dom rs) then ret tt
  else
    r ← rooms_getitem room_id;
    match truthy (peer_target sid r) with
    | Some target => emit (pk_event payload) (pk_data payload) target
    | None => ret tt
    end.

(** [handle_offer], [handle_answer] and [handle_ice_candidate] differ in the
    event name and in the key of the relayed value only. *)
Definition handle_signal (event key : string) (sid : string) (data : SignalData)
    : M unit :=
  rs ← get_rooms;
  match truthy (sg_room_id data) with
  | None => ret tt
  | Some room_id =>
      if decide (room_id ∉ dom rs) then ret tt
      else
        let payload := mkPacket event (Signal room_id key (sg_value data)) in
        route_to_peer sid room_id payload
  end.

Definition handle_offer := handle_signal "offer" "offer".
Definition handle_answer := handle_signal "answer" "answer".
Definition handle_ice_candidate := handle_signal "ice_candidate" "candidate".

Definition handle_chat_message (sid : string) (data : ChatData) : M unit :=
  let sender := sid in
  rs ← get_rooms;
  match truthy (ch_room_id data) with
  | None => ret tt
  | Some room_id =>
      if decide (room_id ∉ dom rs) then ret tt
      else
        with_lock room_id
          (emit "chat_message" (Chat sender (ch_message data)) room_id)
  end.

(** The body of the loop of [handle_disconnect] on one room dict. *)
Definition disconnect_meta (sid : string) (meta : Room) : M Room :=
  let changed := false in
  let '(meta, changed) :=
    if decide (host_sid meta = Some sid)
    then (with_host_sid None meta, true) else (meta, changed) in
  let '(meta, changed) :=
    if decide (client_sid meta = Some sid)
    then (with_client_sid None meta, true) else (meta, changed) in
  if changed then now ← time_time; ret (with_last_active now meta)
  else ret meta.

(** [meta] is the dict stored under [rooms[room_id]]: what the loop body
    did to it is seen through [rooms]. *)
Definition store_meta (room_id : string) (meta : Room) : M unit := λ w,
  Returns (tt, with_rooms (alter (λ _, meta) room_id (rooms w)) w).

(** [for room_id, meta in list(rooms.items())]: Python walks the rooms in
    insertion order, [map_to_list] in the order of the map; both visit
    each room once, and the order only decides which reading of
    [time.time()] a changed room gets. *)
Definition handle_disconnect (sid : string) : M unit :=
  rs ← get_rooms;
  for_each (map_to_list rs) (λ item,
    meta ← disconnect_meta sid item.2;
    store_meta item.1 meta).

(** ** The server as a transition system *)

(** What the transport (or the cleanup thread) can make the process do. *)
Inductive Input :=
  | OnCreateRoom (sid : string) (data : CreateData)
  | OnJoinRoom (sid : string) (data : JoinData)
  | OnControl (sid : string) (data : ControlData)
  | OnStateUpdate (sid : string) (data : StateData)
  | OnOffer (sid : string) (data : SignalData)
  | OnAnswer (sid : string) (data : SignalData)
  | OnIceCandidate (sid : string) (data : SignalData)
  | OnChatMessage (sid : string) (data : ChatData)
  | OnDisconnect (sid : string)
  | CleanupTurn.

Definition dispatch (fuel : nat) (i : Input) : M unit :=
  match i with
  | OnCreateRoom sid data => handle_create_room fuel sid data
  | OnJoinRoom sid data => handle_join_room sid data
  | OnControl sid data => handle_control sid data
  | OnStateUpdate sid data => handle_state_update sid data
  | OnOffer sid data => handle_offer sid data
  | OnAnswer sid data => handle_answer sid data
  | OnIceCandidate sid data => handle_ice_candidate sid data
  | OnChatMessage sid data => handle_chat_message sid data
  | OnDisconnect sid => handle_disconnect sid
  | CleanupTurn => cleanup_worker
  end.

(** [rooms = {}], [room_locks = {}] at import time. *)
Definition boot (clock : nat -> float) (tokens : nat -> string) : World :=
  mkWorld ∅ ∅ [] clock 0 tokens 0.

Definition run (fuel : nat) (trace : list Input) : M unit :=
  for_each trace (dispatch fuel).

Definition reachable (w : World) : Prop :=
  ∃ clock tokens fuel trace,
    run fuel trace (boot clock tokens) = Returns (tt, w).

(** ** Vocabulary of the statements *)

(** A room the handlers can work on: its id passes [if not room_id], it is
    a key of [rooms], and its lock is in [room_locks]. *)
Definition room_at (w : World) (room_id : string) (r : Room) : Prop :=
  room_id ≠ "" ∧ rooms w !! room_id = Some r ∧ room_id ∈ room_locks w.

(** Every room has its lock: the invariant [handle_create_room] and
    [cleanup_worker] maintain between the two dictionaries. *)
Definition locks_cover_rooms (w : World) : Prop :=
  ∀ room_id, is_Some (rooms w !! room_id) → room_id ∈ room_locks w.

(** What one [control] or [state_update] payload does to the playback
    state [s] of its room. *)
Definition control_write (data : ControlData) (s : PlaybackState) : PlaybackState :=
  mkState (default (time s) (ct_time data))
          (if decide (ct_action data = Some "play") then false
           else if decide (ct_action data = Some "pause") then true
           else paused s).

Definition heartbeat_write (data : StateData) : PlaybackState :=
  mkState (default 0%float (su_time data)) (default true (su_paused data)).

(** The messages a handler adds for its peer: one when the target passes
    [if target:], none otherwise. *)
Definition to_peer (target : option string) (event : string) (data : Payload)
    : list Effect :=
  match truthy target with
  | Some t => [Emit event data t]
  | None => []
  end.

(** The five events whose handlers route a message to the other peer,
    sent by connection [sid] with ['room_id'] set to [room_id]. *)
Inductive peer_event (sid room_id : string) : Input -> Prop :=
  | pe_control d :
      ct_room_id d = Some room_id → peer_event sid room_id (OnControl sid d)
  | pe_state_update d :
      su_room_id d = Some room_id → peer_event sid room_id (OnStateUpdate sid d)
  | pe_offer d :
      sg_room_id d = Some room_id → peer_event sid room_id (OnOffer sid d)
  | pe_answer d :
      sg_room_id d = Some room_id → peer_event sid room_id (OnAnswer sid d)
  | pe_ice_candidate d :
      sg_room_id d = Some room_id → peer_event sid room_id (OnIceCandidate sid d).

(** Concrete worlds used to exercise the theorems. *)
Definition demo_clock : nat -> float := λ n,
  Nat.iter n (λ t, (t + 1)%float) 1000%float.
Definition demo_id : string := "kq3Zt0aYx1Zb9PpL".
Definition demo_tokens : nat -> string := λ n,
  match n with O => demo_id | _ => "Xw7u2mC5b8dE1fGh" end.
Definition demo_room : Room :=
  mkRoom (Some "H") None "abc123" "movie.mp4" (mkState 12.5%float false) 990%float.
Definition demo_world : World :=
  mkWorld {[ demo_id := demo_room ]} {[ demo_id ]} []
          demo_clock 3 demo_tokens 1.
Definition full_room : Room := with_client_sid (Some "C") demo_room.
Definition full_world : World :=
  with_rooms {[ demo_id := full_room ]} demo_world.

(** The room and the server state after the connection "H" has created a
    room on the empty server and joined it itself. *)
Definition self_paired_room : Room :=
  mkRoom (Some "H") (Some "H") "abc123" "movie.mp4" (mkState 0%float true)
         1001%float.
Definition self_paired_trace : list Input :=
  [OnCreateRoom "H" (mkCreate (Some "abc123") (Some "movie.mp4"));
   OnJoinRoom "H" (mkJoin (Some demo_id) (Some "abc123"))].
Definition self_paired_world : World :=
  mkWorld {[ demo_id := self_paired_room ]} {[ demo_id ]}
    [JoinRoom "H" demo_id;
     Emit "room_created" (RoomCreated demo_id "movie.mp4") "H";
     JoinRoom "H" demo_id;
     Emit "sync_state" (StateDict (mkState 0%float true)) "H";
     Emit "peer_joined" (Message "Peer joined") "H";
     Emit "ready_for_call" NoData demo_id]
    demo_clock 2 demo_tokens 1.

(** The two grounds on which the sweep reclaims a room: nobody is in it,
    or its last_active is more than the TTL behind [now]. *)
Definition abandoned (meta : Room) : Prop :=
  host_sid meta = None ∧ client_sid meta = None.
Definition expired (now : float) (meta : Room) : Prop :=
  (ROOM_TTL_SECONDS <? now - last_active meta)%float = true.

(** The test the scan of [cleanup_worker] applies to one room. *)
Definition cleanup_marks (now : float) (meta : Room) : bool :=
  match host_sid meta, client_sid meta with
  | None, None => true
  | _, _ => (ROOM_TTL_SECONDS <? now - last_active meta)%float
  end.

(** What [handle_disconnect sid] has done to a room [r] when [r'] is the
    room after it: the slots holding [sid] are [None], the other fields
    but last_active are kept, and last_active is a reading of
    [time.time()] numbered from [t0] to below [t1] when a slot was cleared;
    otherwise the room is as before. *)
Definition disconnected (sid : string) (clk : nat -> float) (t0 t1 : nat)
    (r r' : Room) : Prop :=
  host_sid r' = (if decide (host_sid r = Some sid) then None else host_sid r) ∧
  client_sid r' = (if decide (client_sid r = Some sid) then None else client_sid r) ∧
  video_hash r' = video_hash r ∧
  filename r' = filename r ∧
  state r' = state r ∧
  (host_sid r = Some sid ∨ client_sid r = Some sid →
     ∃ n, t0 ≤ n < t1 ∧ last_active r' = clk n) ∧
  (host_sid r ≠ Some sid → client_sid r ≠ Some sid → r' = r).

(** Control and state_update events, the room they address (the ['room_id']
    that passes [if not room_id]) and the fields of the playback state
    they write. *)
Definition sync_event (i : Input) : Prop :=
  match i with
  | OnControl _ _ | OnStateUpdate _ _ => True
  | _ => False
  end.

Definition addressed_room (i : Input) : option string :=
  match i with
  | OnControl _ d => truthy (ct_room_id d)
  | OnStateUpdate _ d => truthy (su_room_id d)
  | _ => None
  end.

Definition written_time (i : Input) : option float :=
  match i with
  | OnControl _ d => ct_time d
  | OnStateUpdate _ d => Some (default 0%float (su_time d))
  | _ => None
  end.

Definition written_paused (i : Input) : option bool :=
  match i with
  | OnControl _ d =>
      if decide (ct_action d = Some "play") then Some false
      else if decide (ct_action d = Some "pause") then Some true
      else None
  | OnStateUpdate _ d => Some (default true (su_paused d))
  | _ => None
  end.

Definition sync_write (i : Input) (s : PlaybackState) : PlaybackState :=
  mkState (default (time s) (written_time i))
          (default (paused s) (written_paused i)).

(** [m] keeps [P]: when it returns from a state in [P], it ends in [P]. *)
Definition preserves {A} (P : World -> Prop) (m : M A) : Prop :=
  ∀ w a w', P w → m w = Returns (a, w') → P w'.

(** A sequence of three events on [demo_world]: a play by the host, a
    state_update by an unbound connection, a pause for another room id. *)
Definition demo_before : list Input :=
  [OnControl "H" (mkControl (Some demo_id) (Some "play") (Some 1.5%float))].
Definition demo_last : Input :=
  OnStateUpdate "X" (mkStateUpdate (Some demo_id) (Some 7%float) (Some true)).
Definition demo_after : list Input :=
  [OnControl "H" (mkControl (Some "elsewhere") (Some "pause") (Some 9%float))].

(** The ids [handle_create_room] tries in turn from state [w]: the [j]-th
    is the [j]-th token still to be drawn. *)
Definition candidate (w : World) (j : nat) : string := tokens w (draws w + j).

(** The ['room_id'] of a payload names no room of [w]: it is missing,
    empty, or not a key of [rooms]. *)
Definition unknown_room (w : World) (v : option string) : Prop :=
  ∀ room_id, truthy v = Some room_id → rooms w !! room_id = None.

(** What one input may do to a room that is in [rooms] before and after
    it: the hash and the filename stay; the host slot stays or is emptied;
    the client slot stays, is emptied, or is taken by the sender of a
    join_room that found it empty and carried the room's hash. *)
Definition room_step (i : Input) (r r' : Room) : Prop :=
  video_hash r' = video_hash r ∧
  filename r' = filename r ∧
  (host_sid r' = host_sid r ∨ host_sid r' = None) ∧
  (client_sid r' = client_sid r ∨ client_sid r' = None ∨
   ∃ sid data, i = OnJoinRoom sid data ∧ client_sid r = None ∧
               client_sid r' = Some sid ∧
               jn_video_hash data = Some (video_hash r)).

(** The same over a whole trace: hash and filename stay, and a host slot
    is never filled again. *)
Definition room_kept (r r' : Room) : Prop :=
  video_hash r' = video_hash r ∧
  filename r' = filename r ∧
  (host_sid r' = host_sid r ∨ host_sid r' = None).

(** A signaling handler [h] is a pure relay of [event]: in every state it
    returns, touches nothing but the outbox, and emits nothing or the one
    message [event] carrying the payload's room id and value under [key],
    addressed to the peer of the sender in that room. *)
Definition relays (h : string -> SignalData -> M unit) (event key : string)
    : Prop :=
  ∀ w sid data,
    ∃ new,
      h sid data w = Returns (tt, with_outbox (outbox w ++ new) w) ∧
      ((new = [] ∧
        (unknown_room w (sg_room_id data) ∨
         ∃ room_id r, truthy (sg_room_id data) = Some room_id ∧
                      rooms w !! room_id = Some r ∧
                      truthy (peer_target sid r) = None)) ∨
       ∃ room_id r target,
         truthy (sg_room_id data) = Some room_id ∧
         rooms w !! room_id = Some r ∧
         truthy (peer_target sid r) = Some target ∧
         new = [Emit event (Signal room_id key (sg_value data)) target]).

(** The token source seen from [w0]: the same tokens, at least as many of
    them drawn. *)
Definition tokens_from (w0 w : World) : Prop :=
  tokens w = tokens w0 ∧ (draws w0 ≤ draws w)%nat.

(** Every room of a running server: its id is one of the tokens drawn so
    far, and its hash and filename are not empty. *)
Definition rooms_well_formed (w : World) : Prop :=
  ∀ k r, rooms w !! k = Some r →
    (∃ n, (n < draws w)%nat ∧ k = tokens w n) ∧
    video_hash r ≠ "" ∧ filename r ≠ "".

(** [demo_world] after its host "H" has disconnected. *)
Definition demo_left_room : Room :=
  mkRoom None None "abc123" "movie.mp4" (mkState 12.5%float false) 1003%float.
Definition demo_left_world : World :=
  mkWorld {[ demo_id := demo_left_room ]} {[ demo_id ]} []
          demo_clock 4 demo_tokens 1.

(** The events that carry a ['room_id'], and the room they name (the id
    that passes [if not room_id]). *)
Definition room_event (i : Input) : Prop :=
  match i with
  | OnCreateRoom _ _ | OnDisconnect _ | CleanupTurn => False
  | _ => True
  end.

Definition event_room (i : Input) : option string :=
  match i with
  | OnJoinRoom _ d => truthy (jn_room_id d)
  | OnControl _ d => truthy (ct_room_id d)
  | OnStateUpdate _ d => truthy (su_room_id d)
  | OnOffer _ d | OnAnswer _ d | OnIceCandidate _ d => truthy (sg_room_id d)
  | OnChatMessage _ d => truthy (ch_room_id d)
  | _ => None
  end.

(** [demo_world] after a pause at 42.5 sent by the unbound connection "X". *)
Definition demo_paused_world : World :=
  mkWorld
    {[ demo_id := mkRoom (Some "H") None "abc123" "movie.mp4"
                    (mkState 42.5%float true) 1003%float ]}
    {[ demo_id ]}
    [Emit "sync_state" (StateDict (mkState 42.5%float true)) "H"]
    demo_clock 4 demo_tokens 1.

(** ** Stepping through a handler *)

Ltac hsimpl :=
  cbv beta iota delta
    [bind ret time_time generate_room_id emit join_room get_rooms
     rooms_getitem rooms_setitem store_meta];
  cbn [rooms room_locks outbox clock ticks tokens draws
       with_rooms with_room_locks with_outbox with_ticks with_draws
       host_sid client_sid video_hash filename state last_active
       with_host_sid with_client_sid with_state with_last_active
       time paused with_time with_paused
       jn_room_id jn_video_hash ct_room_id ct_action ct_time
       su_room_id su_time su_paused sg_room_id sg_value ch_room_id ch_message
       pk_event pk_data fst snd].

Ltac hnorm :=
  unfold with_rooms, with_room_locks, with_outbox, with_ticks, with_draws,
    with_host_sid, with_client_sid, with_state, with_last_active,
    with_time, with_paused;
  cbn [rooms room_locks outbox clock ticks tokens draws
       host_sid client_sid video_hash filename state last_active
       time paused default from_option id app];
  rewrite ?app_nil_r.

Lemma truthy_Some s : s ≠ "" → truthy (Some s) = Some s.
Proof. intros Hs. unfold truthy. by rewrite decide_False. Qed.

Lemma truthy_inv v s : truthy v = Some s → v = Some s ∧ s ≠ "".
Proof.
  destruct v as [x|]; simpl; [|done].
  case_decide; [done|]. by intros [= ->].
Qed.

Lemma if_in_rooms {A} (m : gmap string Room) k r (x y : A) :
  m !! k = Some r → (if decide (k ∉ dom m) then x else y) = y.
Proof.
  intros Hk. rewrite decide_False; [done|].
  intros Hn. apply Hn, elem_of_dom. by exists r.
Qed.

Lemma if_not_in_rooms {A} (m : gmap string Room) k (x y : A) :
  m !! k = None → (if decide (k ∉ dom m) then x else y) = x.
Proof. intros Hk. rewrite decide_True; [done|]. by apply not_elem_of_dom. Qed.

Lemma with_lock_held {A} room_id (body : M A) w :
  room_id ∈ room_locks w → with_lock room_id body w = body w.
Proof. intros Hl. unfold with_lock. by rewrite decide_True. Qed.

Lemma with_lock_missing {A} room_id (body : M A) w :
  room_id ∉ room_locks w → with_lock room_id body w = Raises (KeyError room_id).
Proof. intros Hl. unfold with_lock. by rewrite decide_False. Qed.

Lemma handle_control_at w sid data room_id r :
  ct_room_id data = Some room_id →
  room_at w room_id r →
  handle_control sid data w =
  Returns (tt,
    mkWorld
      (<[room_id := mkRoom (host_sid r) (client_sid r) (video_hash r) (filename r)
                      (control_write data (state r)) (clock w (ticks w))]> (rooms w))
      (room_locks w)
      (outbox w ++ to_peer (peer_target sid r) "sync_state"
                     (StateDict (control_write data (state r))))
      (clock w) (S (ticks w)) (tokens w) (draws w)).
Proof.
  intros Hid (Hne & Hr & Hl).
  unfold handle_control, control_write, to_peer. rewrite Hid, truthy_Some by done.
  hsimpl. cbn [mbind option_bind]. rewrite Hr.
  rewrite (if_in_rooms _ _ r) by done.
  rewrite with_lock_held by done.
  destruct (ct_time data) as [t|]; cbn [default];
    repeat case_decide; hsimpl;
    rewrite ?Hr; hsimpl; rewrite ?lookup_insert_eq; hsimpl;
    rewrite ?lookup_insert_eq; hsimpl; rewrite ?lookup_insert_eq; hsimpl;
    rewrite ?insert_insert_eq;
    unfold peer_target; hsimpl;
    destruct (truthy _); hsimpl; rewrite ?lookup_insert_eq; hnorm; reflexivity.
Qed.

Lemma handle_state_update_at w sid data room_id r :
  su_room_id data = Some room_id →
  room_at w room_id r →
  handle_state_update sid data w =
  Returns (tt,
    mkWorld
      (<[room_id := mkRoom (host_sid r) (client_sid r) (video_hash r) (filename r)
                      (heartbeat_write data) (clock w (ticks w))]> (rooms w))
      (room_locks w)
      (outbox w ++ to_peer (peer_target sid r) "sync_state"
                     (StateDict (heartbeat_write data)))
      (clock w) (S (ticks w)) (tokens w) (draws w)).
Proof.
  intros Hid (Hne & Hr & Hl).
  unfold handle_state_update, heartbeat_write, to_peer.
  rewrite Hid, truthy_Some by done.
  hsimpl. rewrite (if_in_rooms _ _ r) by done.
  rewrite with_lock_held by done.
  hsimpl. rewrite Hr. hsimpl. do 3 (rewrite lookup_insert_eq; hsimpl).
  rewrite !insert_insert_eq. unfold peer_target. hsimpl.
  destruct (truthy _); hsimpl; rewrite ?lookup_insert_eq; hnorm; reflexivity.
Qed.

Lemma handle_signal_at event key w sid data room_id r :
  sg_room_id data = Some room_id →
  room_id ≠ "" →
  rooms w !! room_id = Some r →
  handle_signal event key sid data w =
  Returns (tt,
    with_outbox (outbox w ++ to_peer (peer_target sid r) event
                               (Signal room_id key (sg_value data))) w).
Proof.
  intros Hid Hne Hr.
  unfold handle_signal, route_to_peer, to_peer.
  rewrite Hid, truthy_Some by done.
  hsimpl. rewrite !(if_in_rooms _ _ r) by done. rewrite Hr.
  destruct (truthy _); hsimpl; hnorm; [reflexivity|].
  by destruct w.
Qed.

Lemma handle_join_room_at w sid data room_id r :
  jn_room_id data = Some room_id →
  room_at w room_id r →
  client_sid r = None →
  jn_video_hash data = Some (video_hash r) →
  handle_join_room sid data w =
  Returns (tt,
    mkWorld
      (<[room_id := mkRoom (host_sid r) (Some sid) (video_hash r) (filename r)
                      (state r) (clock w (ticks w))]> (rooms w))
      (room_locks w)
      (outbox w ++ [JoinRoom sid room_id;
                    Emit "sync_state" (StateDict (state r)) sid]
                ++ to_peer (host_sid r) "peer_joined" (Message "Peer joined")
                ++ [Emit "ready_for_call" NoData room_id])
      (clock w) (S (ticks w)) (tokens w) (draws w)).
Proof.
  intros Hid (Hne & Hr & Hl) Hc Hv.
  unfold handle_join_room, to_peer. rewrite Hid, truthy_Some by done.
  hsimpl. rewrite (if_in_rooms _ _ r) by done.
  rewrite with_lock_held by done.
  hsimpl. rewrite Hr. hsimpl. rewrite Hc.
  rewrite decide_False by (by intros ?). hsimpl. rewrite Hr. hsimpl.
  rewrite decide_False by (by rewrite Hv; intros ?). hsimpl. rewrite Hr. hsimpl.
  do 3 (rewrite lookup_insert_eq; hsimpl).
  rewrite !insert_insert_eq.
  destruct (truthy _); hsimpl; hnorm; rewrite <- ?app_assoc; reflexivity.
Qed.

Lemma handle_join_room_full w sid data room_id r :
  jn_room_id data = Some room_id →
  room_at w room_id r →
  client_sid r ≠ None →
  handle_join_room sid data w =
  Returns (tt, with_outbox
                 (outbox w ++ [Emit "error" (Message "Room is full") sid]) w).
Proof.
  intros Hid (Hne & Hr & Hl) Hc.
  unfold handle_join_room. rewrite Hid, truthy_Some by done.
  hsimpl. rewrite (if_in_rooms _ _ r) by done.
  rewrite with_lock_held by done.
  hsimpl. rewrite Hr. hsimpl. by rewrite decide_True.
Qed.

Lemma handle_join_room_mismatch w sid data room_id r :
  jn_room_id data = Some room_id →
  room_at w room_id r →
  client_sid r = None →
  jn_video_hash data ≠ Some (video_hash r) →
  handle_join_room sid data w =
  Returns (tt, with_outbox
    (outbox w ++ [Emit "error" (Message
      "Video file mismatch! Make sure you selected the same file as the host.")
      sid]) w).
Proof.
  intros Hid (Hne & Hr & Hl) Hc Hv.
  unfold handle_join_room. rewrite Hid, truthy_Some by done.
  hsimpl. rewrite (if_in_rooms _ _ r) by done.
  rewrite with_lock_held by done.
  hsimpl. rewrite Hr. hsimpl. rewrite Hc.
  rewrite decide_False by (by intros ?). hsimpl. rewrite Hr. hsimpl.
  by rewrite decide_True.
Qed.

Lemma handle_create_room_fresh fuel w sid data vhash fname :
  cr_video_hash data = Some vhash → vhash ≠ "" →
  cr_filename data = Some fname → fname ≠ "" →
  rooms w !! tokens w (draws w) = None →
  handle_create_room fuel sid data w =
  Returns (tt,
    mkWorld
      (<[tokens w (draws w) :=
           mkRoom (Some sid) None vhash fname (mkState 0%float true)
                  (clock w (ticks w))]> (rooms w))
      ({[tokens w (draws w)]} ∪ room_locks w)
      (outbox w ++ [JoinRoom sid (tokens w (draws w));
                    Emit "room_created" (RoomCreated (tokens w (draws w)) fname) sid])
      (clock w) (S (ticks w)) (tokens w) (S (draws w))).
Proof.
  intros Hv Hvn Hf Hfn Hfresh.
  unfold handle_create_room. rewrite Hv, Hf, !truthy_Some by done.
  hsimpl. destruct fuel; cbn [retry_room_id]; hsimpl;
    rewrite decide_False by (by apply not_elem_of_dom); hsimpl; hnorm;
    rewrite <- app_assoc; reflexivity.
Qed.

(** The retry loop ends at the first candidate that is not a key of
    [rooms], whenever the fuel reaches that far. *)
Lemma retry_room_id_returns n fuel w room_id :
  (n ≤ fuel)%nat →
  (∀ j, (j < n)%nat →
        is_Some (rooms w !! (match j with O => room_id | S j' => candidate w j' end))) →
  rooms w !! (match n with O => room_id | S n' => candidate w n' end) = None →
  retry_room_id fuel room_id w =
  Returns (match n with O => room_id | S n' => candidate w n' end,
           with_draws (draws w + n) w).
Proof.
  revert fuel w room_id. induction n as [|n IH]; intros fuel w room_id Hn Hall Hfree.
  - destruct fuel; cbn [retry_room_id]; hsimpl;
      rewrite decide_False by (by apply not_elem_of_dom);
      hnorm; rewrite Nat.add_0_r; by destruct w.
  - destruct fuel as [|fuel]; [lia|]. cbn [retry_room_id]. hsimpl.
    rewrite decide_True by (apply elem_of_dom, (Hall 0); lia). hsimpl.
    rewrite (IH fuel (with_draws (S (draws w)) w) (tokens w (draws w)));
      unfold candidate in *; cbn [rooms tokens draws with_draws].
    + replace (draws w + S n) with (S (draws w) + n) by lia. hnorm.
      do 2 f_equal. destruct n; f_equal; lia.
    + lia.
    + intros j Hj. specialize (Hall (S j) ltac:(lia)).
      destruct j; [by rewrite Nat.add_0_r in Hall|].
      by replace (S (draws w) + j) with (draws w + S j) by lia.
    + destruct n; [by rewrite Nat.add_0_r in Hfree|].
      by replace (S (draws w) + n) with (draws w + S n) by lia.
Qed.

Lemma peer_target_self sid r :
  truthy (peer_target sid r) = Some sid ↔
  sid ≠ "" ∧ host_sid r = Some sid ∧ client_sid r = Some sid.
Proof.
  unfold peer_target. split.
  - intros [Ht Hne]%truthy_inv. case_decide as Hh; [by rewrite <- Hh|].
    by rewrite Ht in Hh.
  - intros (Hne & Hh & Hc). rewrite decide_True by done.
    rewrite Hc. by apply truthy_Some.
Qed.

Lemma demo_room_at : room_at demo_world demo_id demo_room.
Proof. split; [done | split; [apply lookup_singleton_eq | set_solver]]. Defined.

Lemma full_room_at : room_at full_world demo_id full_room.
Proof. split; [done | split; [apply lookup_singleton_eq | set_solver]]. Defined.

Lemma self_paired_reachable : reachable self_paired_world.
Proof.
  exists demo_clock, demo_tokens, 0, self_paired_trace.
  vm_compute. reflexivity.
Qed.

(** ** join_room *)

(** C3 (capacity, RoomFull): on a room whose client slot is occupied, every
    join_room request is answered by one [error] "Room is full" addressed
    to the requester, and nothing else changes: [rooms] (hence the room's
    client_sid, host_sid, video_hash, state and last_active), the locks and
    the clock reads are those of before.  The client slot is one
    [option]: it never holds two connections. *)
Theorem join_full_room_rejected w sid data room_id r :
  jn_room_id data = Some room_id →
  room_at w room_id r →
  client_sid r ≠ None →
  ∃ w',
    handle_join_room sid data w = Returns (tt, w') ∧
    outbox w' = outbox w ++ [Emit "error" (Message "Room is full") sid] ∧
    rooms w' = rooms w ∧
    rooms w' !! room_id = Some r ∧
    room_locks w' = room_locks w ∧
    ticks w' = ticks w.
Proof.
  intros Hid Hat Hc. eexists. split.
  - by apply (handle_join_room_full _ _ _ room_id r).
  - by destruct Hat as (_ & Hr & _).
Qed.

Lemma join_full_room_rejected_witness :
  ∃ w',
    handle_join_room "X" (mkJoin (Some demo_id) (Some "abc123")) full_world
      = Returns (tt, w') ∧
    outbox w' = outbox full_world ++ [Emit "error" (Message "Room is full") "X"] ∧
    rooms w' = rooms full_world ∧
    rooms w' !! demo_id = Some full_room ∧
    room_locks w' = room_locks full_world ∧
    ticks w' = ticks full_world.
Proof.
  apply (join_full_room_rejected full_world "X" _ demo_id full_room).
  - reflexivity.
  - exact full_room_at.
  - vm_compute. discriminate.
Defined.

(** C4 (fingerprint gate): on a room whose client slot is empty, a
    join_room request whose video_hash differs from the room's is answered
    by one [error] "Video file mismatch!..." addressed to the requester;
    client_sid stays [None] and [rooms] is unchanged. *)
Theorem join_mismatch_rejected w sid data room_id r :
  jn_room_id data = Some room_id →
  room_at w room_id r →
  client_sid r = None →
  jn_video_hash data ≠ Some (video_hash r) →
  ∃ w',
    handle_join_room sid data w = Returns (tt, w') ∧
    outbox w' = outbox w ++ [Emit "error" (Message
      "Video file mismatch! Make sure you selected the same file as the host.")
      sid] ∧
    rooms w' = rooms w ∧
    rooms w' !! room_id = Some r ∧
    room_locks w' = room_locks w ∧
    ticks w' = ticks w.
Proof.
  intros Hid Hat Hc Hv. eexists. split.
  - by apply (handle_join_room_mismatch _ _ _ room_id r).
  - by destruct Hat as (_ & Hr & _).
Qed.

Lemma join_mismatch_rejected_witness :
  ∃ w',
    handle_join_room "X" (mkJoin (Some demo_id) (Some "xyz")) demo_world
      = Returns (tt, w') ∧
    outbox w' = outbox demo_world ++ [Emit "error" (Message
      "Video file mismatch! Make sure you selected the same file as the host.")
      "X"] ∧
    rooms w' = rooms demo_world ∧
    rooms w' !! demo_id = Some demo_room ∧
    room_locks w' = room_locks demo_world ∧
    ticks w' = ticks demo_world.
Proof.
  apply (join_mismatch_rejected demo_world "X" _ demo_id demo_room).
  - reflexivity.
  - exact demo_room_at.
  - reflexivity.
  - vm_compute. discriminate.
Defined.

(** C5 (join_room success): on a room whose client slot is empty, a
    join_room request carrying the room's video_hash returns, sets
    client_sid to the requester, sets last_active to the reading of
    [time.time()] and leaves the other fields; it subscribes the requester
    to the room, emits [sync_state] with the room's current state to the
    requester, [peer_joined] to the host slot's connection (nothing when
    that slot is empty) and [ready_for_call] to the room, in this order and
    nothing else.  In particular a join that follows the creation of the
    room delivers [sync_state {time: 0.0, paused: True}] to the joiner. *)
Theorem join_room_success :
  (∀ w sid data room_id r,
     jn_room_id data = Some room_id →
     room_at w room_id r →
     client_sid r = None →
     jn_video_hash data = Some (video_hash r) →
     ∃ w',
       handle_join_room sid data w = Returns (tt, w') ∧
       rooms w' = <[room_id := mkRoom (host_sid r) (Some sid) (video_hash r)
                      (filename r) (state r) (clock w (ticks w))]> (rooms w) ∧
       room_locks w' = room_locks w ∧
       outbox w' =
         outbox w ++ [JoinRoom sid room_id;
                      Emit "sync_state" (StateDict (state r)) sid]
                  ++ to_peer (host_sid r) "peer_joined" (Message "Peer joined")
                  ++ [Emit "ready_for_call" NoData room_id]) ∧
  (∀ fuel w host cdata vhash fname joiner,
     cr_video_hash cdata = Some vhash → vhash ≠ "" →
     cr_filename cdata = Some fname → fname ≠ "" →
     tokens w (draws w) ≠ "" →
     rooms w !! tokens w (draws w) = None →
     ∃ w1 w2,
       handle_create_room fuel host cdata w = Returns (tt, w1) ∧
       outbox w1 = outbox w ++
         [JoinRoom host (tokens w (draws w));
          Emit "room_created" (RoomCreated (tokens w (draws w)) fname) host] ∧
       handle_join_room joiner
         (mkJoin (Some (tokens w (draws w))) (Some vhash)) w1
         = Returns (tt, w2) ∧
       outbox w2 =
         outbox w1 ++ [JoinRoom joiner (tokens w (draws w));
                       Emit "sync_state" (StateDict (mkState 0%float true)) joiner]
                   ++ to_peer (Some host) "peer_joined" (Message "Peer joined")
                   ++ [Emit "ready_for_call" NoData (tokens w (draws w))]).
Proof.
  split.
  - intros w sid data room_id r Hid Hat Hc Hv. eexists. split.
    + by apply (handle_join_room_at _ _ _ room_id r).
    + done.
  - intros fuel w host cdata vhash fname joiner Hv Hvn Hf Hfn Htok Hfresh.
    eexists _, _. split.
    { by apply (handle_create_room_fresh _ _ _ _ vhash fname). }
    split; [done|]. split.
    + apply (handle_join_room_at _ _ _ (tokens w (draws w))
               (mkRoom (Some host) None vhash fname (mkState 0%float true)
                       (clock w (ticks w)))); [done| |done|done].
      split; [done|]. cbn [rooms room_locks]. split.
      * apply lookup_insert_eq.
      * set_solver.
    + done.
Qed.

Lemma join_room_success_witness :
  ∃ w',
    handle_join_room "C" (mkJoin (Some demo_id) (Some "abc123")) demo_world
      = Returns (tt, w') ∧
    rooms w' = <[demo_id := mkRoom (Some "H") (Some "C") "abc123" "movie.mp4"
                   (mkState 12.5%float false) 1003%float]> (rooms demo_world) ∧
    room_locks w' = room_locks demo_world ∧
    outbox w' =
      [JoinRoom "C" demo_id;
       Emit "sync_state" (StateDict (mkState 12.5%float false)) "C";
       Emit "peer_joined" (Message "Peer joined") "H";
       Emit "ready_for_call" NoData demo_id].
Proof.
  apply (proj1 join_room_success demo_world "C" _ demo_id demo_room).
  - reflexivity.
  - exact demo_room_at.
  - reflexivity.
  - reflexivity.
Defined.

(** C9 (the host can join its own room): [handle_join_room] never compares
    the requester with host_sid.  When the connection in the host slot
    joins its own room (client slot empty, same video_hash) the join
    returns and the room holds that connection in both slots; such a room
    is reached from the empty server by create_room then join_room. *)
Theorem host_joins_own_room :
  (∀ w h room_id r,
     room_at w room_id r →
     host_sid r = Some h →
     client_sid r = None →
     ∃ w' r',
       handle_join_room h (mkJoin (Some room_id) (Some (video_hash r))) w
         = Returns (tt, w') ∧
       rooms w' !! room_id = Some r' ∧
       host_sid r' = Some h ∧ client_sid r' = Some h) ∧
  (∃ w room_id r h,
     reachable w ∧ rooms w !! room_id = Some r ∧
     host_sid r = Some h ∧ client_sid r = Some h).
Proof.
  split.
  - intros w h room_id r Hat Hh Hc. eexists _, _. split.
    + by apply (handle_join_room_at _ _ _ room_id r).
    + cbn [rooms]. rewrite lookup_insert_eq. done.
  - exists self_paired_world, demo_id, self_paired_room, "H". split.
    + exact self_paired_reachable.
    + split; [apply lookup_singleton_eq | done].
Qed.

Lemma host_joins_own_room_witness :
  ∃ w' r',
    handle_join_room "H" (mkJoin (Some demo_id) (Some "abc123")) demo_world
      = Returns (tt, w') ∧
    rooms w' !! demo_id = Some r' ∧
    host_sid r' = Some "H" ∧ client_sid r' = Some "H".
Proof.
  apply (proj1 host_joins_own_room demo_world "H" demo_id demo_room).
  - exact demo_room_at.
  - reflexivity.
  - reflexivity.
Defined.

(** C10 (unknown control actions are not rejected): a control event whose
    action is none of play, pause and seek (or is missing) is handled
    exactly as the same event with action seek, in every server state.  On
    an existing room it returns, stores the reported time, keeps paused,
    sets last_active to the reading of [time.time()], and emits
    [sync_state] with the new state to the counterpart. *)
Theorem control_unknown_action_as_seek w sid data :
  ct_action data ≠ Some "play" →
  ct_action data ≠ Some "pause" →
  ct_action data ≠ Some "seek" →
  handle_control sid data w =
    handle_control sid (mkControl (ct_room_id data) (Some "seek") (ct_time data)) w ∧
  ∀ room_id r,
    ct_room_id data = Some room_id →
    room_at w room_id r →
    ∃ w',
      handle_control sid data w = Returns (tt, w') ∧
      rooms w' =
        <[room_id := mkRoom (host_sid r) (client_sid r) (video_hash r) (filename r)
            (mkState (default (time (state r)) (ct_time data)) (paused (state r)))
            (clock w (ticks w))]> (rooms w) ∧
      outbox w' =
        outbox w ++ to_peer (peer_target sid r) "sync_state"
          (StateDict (mkState (default (time (state r)) (ct_time data))
                              (paused (state r)))).
Proof.
  intros Hplay Hpause Hseek.
  assert (Hw : ∀ s, control_write data s =
                    mkState (default (time s) (ct_time data)) (paused s)).
  { intros s. unfold control_write. by rewrite !decide_False. }
  split.
  - destruct (truthy (ct_room_id data)) as [room_id|] eqn:Ht.
    + apply truthy_inv in Ht as [Hid Hne].
      destruct (rooms w !! room_id) as [r|] eqn:Hr.
      * destruct (decide (room_id ∈ room_locks w)) as [Hl|Hl].
        -- rewrite (handle_control_at w sid data room_id r) by done.
           rewrite (handle_control_at w sid (mkControl _ _ _) room_id r) by done.
           rewrite Hw. reflexivity.
        -- unfold handle_control. cbn [ct_room_id ct_action ct_time].
           rewrite Hid, truthy_Some by done. hsimpl.
           rewrite !(if_in_rooms _ _ r) by done.
           rewrite !with_lock_missing by done. reflexivity.
      * unfold handle_control. cbn [ct_room_id ct_action ct_time].
        rewrite Hid, truthy_Some by done. hsimpl.
        by rewrite !if_not_in_rooms.
    + unfold handle_control. cbn [ct_room_id ct_action ct_time].
      rewrite Ht. reflexivity.
  - intros room_id r Hid Hat. eexists. split.
    + by apply (handle_control_at _ _ _ room_id r).
    + cbn [rooms outbox]. by rewrite Hw.
Qed.

Lemma control_unknown_action_as_seek_witness :
  handle_control "H" (mkControl (Some demo_id) (Some "rewind") (Some 42.5%float))
    full_world =
  handle_control "H" (mkControl (Some demo_id) (Some "seek") (Some 42.5%float))
    full_world ∧
  ∀ room_id r,
    Some demo_id = Some room_id →
    room_at full_world room_id r →
    ∃ w',
      handle_control "H"
        (mkControl (Some demo_id) (Some "rewind") (Some 42.5%float)) full_world
        = Returns (tt, w') ∧
      rooms w' =
        <[room_id := mkRoom (host_sid r) (client_sid r) (video_hash r) (filename r)
            (mkState 42.5%float (paused (state r)))
            (clock full_world (ticks full_world))]> (rooms full_world) ∧
      outbox w' =
        outbox full_world ++ to_peer (peer_target "H" r) "sync_state"
          (StateDict (mkState 42.5%float (paused (state r)))).
Proof.
  apply (control_unknown_action_as_seek full_world "H"
           (mkControl (Some demo_id) (Some "rewind") (Some 42.5%float)));
    vm_compute; discriminate.
Defined.

Lemma peer_event_sends fuel w sid room_id r i :
  room_at w room_id r →
  peer_event sid room_id i →
  ∃ w' event data,
    dispatch fuel i w = Returns (tt, w') ∧
    outbox w' = outbox w ++ to_peer (peer_target sid r) event data ∧
    (∀ d, i = OnControl sid d →
          ∃ r', rooms w' !! room_id = Some r' ∧
                state r' = control_write d (state r)) ∧
    (∀ d, i = OnStateUpdate sid d →
          ∃ r', rooms w' !! room_id = Some r' ∧
                state r' = heartbeat_write d).
Proof.
  intros Hat Hev.
  destruct Hev as [d Hid|d Hid|d Hid|d Hid|d Hid]; cbn [dispatch];
    eexists _, _, _.
  - split; [by apply (handle_control_at _ _ _ room_id r)|].
    split; [done|]. split; [|by intros d' [=]].
    intros d' [= <-]. eexists. cbn [rooms]. by rewrite lookup_insert_eq.
  - split; [by apply (handle_state_update_at _ _ _ room_id r)|].
    split; [done|]. split; [by intros d' [=]|].
    intros d' [= <-]. eexists. cbn [rooms]. by rewrite lookup_insert_eq.
  - destruct Hat as (Hne & Hr & _).
    split; [by apply (handle_signal_at _ _ _ _ _ room_id r)|].
    split; [done|]. split; by intros d' [=].
  - destruct Hat as (Hne & Hr & _).
    split; [by apply (handle_signal_at _ _ _ _ _ room_id r)|].
    split; [done|]. split; by intros d' [=].
  - destruct Hat as (Hne & Hr & _).
    split; [by apply (handle_signal_at _ _ _ _ _ room_id r)|].
    split; [done|]. split; by intros d' [=].
Qed.

(** C2 (counterpart routing rule): a control, state_update, offer, answer
    or ice_candidate event on an existing room returns and emits exactly
    the messages [to_peer target ...], where [target] is the client slot
    when the sender is the stored host and the host slot otherwise.  So a
    sender bound to neither slot reaches the connection in the host slot;
    and when the target slot is [None] nothing is emitted, while control
    and state_update have still written the playback state. *)
Theorem peer_routing_rule fuel w sid room_id r i :
  room_at w room_id r →
  peer_event sid room_id i →
  ∃ w' event data,
    dispatch fuel i w = Returns (tt, w') ∧
    outbox w' =
      outbox w ++ to_peer (if decide (Some sid = host_sid r)
                           then client_sid r else host_sid r) event data ∧
    (∀ h, host_sid r ≠ Some sid → client_sid r ≠ Some sid →
          host_sid r = Some h → h ≠ "" →
          outbox w' = outbox w ++ [Emit event data h]) ∧
    ((if decide (Some sid = host_sid r) then client_sid r else host_sid r) = None →
     outbox w' = outbox w) ∧
    (∀ d, i = OnControl sid d →
          ∃ r', rooms w' !! room_id = Some r' ∧
                state r' = control_write d (state r)) ∧
    (∀ d, i = OnStateUpdate sid d →
          ∃ r', rooms w' !! room_id = Some r' ∧
                state r' = heartbeat_write d).
Proof.
  intros Hat Hev.
  destruct (peer_event_sends fuel w sid room_id r i Hat Hev)
    as (w' & event & data & Hrun & Hout & Hctl & Hsu).
  exists w', event, data. unfold peer_target in Hout. cbn zeta in Hout.
  split; [done|]. split; [done|]. split; [|split; [|done]].
  - intros h Hh _ Hhost Hne. rewrite Hout, decide_False by done.
    unfold to_peer. by rewrite Hhost, truthy_Some.
  - intros Hnone. rewrite Hout, Hnone. unfold to_peer. cbn [truthy].
    by rewrite app_nil_r.
Qed.

Lemma peer_routing_rule_witness :
  ∃ w' event data,
    dispatch 0 (OnControl "X" (mkControl (Some demo_id) (Some "pause") (Some 42.5%float)))
      demo_world = Returns (tt, w') ∧
    outbox w' =
      outbox demo_world ++ to_peer (if decide (Some "X" = host_sid demo_room)
        then client_sid demo_room else host_sid demo_room) event data ∧
    (∀ h, host_sid demo_room ≠ Some "X" → client_sid demo_room ≠ Some "X" →
          host_sid demo_room = Some h → h ≠ "" →
          outbox w' = outbox demo_world ++ [Emit event data h]) ∧
    ((if decide (Some "X" = host_sid demo_room)
      then client_sid demo_room else host_sid demo_room) = None →
     outbox w' = outbox demo_world) ∧
    (∀ d, OnControl "X" (mkControl (Some demo_id) (Some "pause") (Some 42.5%float))
            = OnControl "X" d →
          ∃ r', rooms w' !! demo_id = Some r' ∧
                state r' = control_write d (state demo_room)) ∧
    (∀ d, OnControl "X" (mkControl (Some demo_id) (Some "pause") (Some 42.5%float))
            = OnStateUpdate "X" d →
          ∃ r', rooms w' !! demo_id = Some r' ∧
                state r' = heartbeat_write d).
Proof.
  apply (peer_routing_rule 0 demo_world "X" demo_id demo_room).
  - exact demo_room_at.
  - apply pe_control. reflexivity.
Defined.

(** Outside the self-paired case the message for the peer never returns to
    its sender. *)
Lemma no_echo_unless_self_paired fuel w sid room_id r i :
  room_at w room_id r →
  peer_event sid room_id i →
  ¬ (host_sid r = Some sid ∧ client_sid r = Some sid) →
  ∃ w' new,
    dispatch fuel i w = Returns (tt, w') ∧
    outbox w' = outbox w ++ new ∧
    ∀ event data to, Emit event data to ∈ new → to ≠ sid.
Proof.
  intros Hat Hev Hpair.
  destruct (peer_event_sends fuel w sid room_id r i Hat Hev)
    as (w' & event & data & Hrun & Hout & _).
  exists w', (to_peer (peer_target sid r) event data).
  split; [done|]. split; [done|].
  intros ev d to Hin ->. unfold to_peer in Hin.
  destruct (truthy (peer_target sid r)) as [t|] eqn:Ht.
  - apply list_elem_of_singleton in Hin. injection Hin as -> -> ->.
    apply peer_target_self in Ht as (_ & Hh & Hc). by apply Hpair.
  - by apply not_elem_of_nil in Hin.
Qed.

(** C1 (no-echo routing), failing input.  Connection "H" creates a room on
    the empty server and joins it itself; both slots then hold "H".  Each
    of control, state_update and offer sent by "H" to that room emits its
    message addressed to "H": the sender receives its own update. *)
Theorem self_paired_sender_receives_echo :
  reachable self_paired_world ∧
  handle_control "H" (mkControl (Some demo_id) (Some "seek") (Some 42.5%float))
    self_paired_world =
  Returns (tt,
    mkWorld
      {[ demo_id := mkRoom (Some "H") (Some "H") "abc123" "movie.mp4"
                      (mkState 42.5%float true) 1002%float ]}
      {[ demo_id ]}
      (outbox self_paired_world ++
         [Emit "sync_state" (StateDict (mkState 42.5%float true)) "H"])
      demo_clock 3 demo_tokens 1) ∧
  handle_state_update "H" (mkStateUpdate (Some demo_id) (Some 7%float) (Some false))
    self_paired_world =
  Returns (tt,
    mkWorld
      {[ demo_id := mkRoom (Some "H") (Some "H") "abc123" "movie.mp4"
                      (mkState 7%float false) 1002%float ]}
      {[ demo_id ]}
      (outbox self_paired_world ++
         [Emit "sync_state" (StateDict (mkState 7%float false)) "H"])
      demo_clock 3 demo_tokens 1) ∧
  handle_offer "H" (mkSignal (Some demo_id) (Some "sdp")) self_paired_world =
  Returns (tt,
    with_outbox
      (outbox self_paired_world ++
         [Emit "offer" (Signal demo_id "offer" (Some "sdp")) "H"])
      self_paired_world).
Proof.
  split; [exact self_paired_reachable|].
  repeat split; vm_compute; reflexivity.
Qed.

(** *** The sweep *)

Lemma cleanup_marks_spec now meta :
  cleanup_marks now meta = true ↔ abandoned meta ∨ expired now meta.
Proof.
  unfold cleanup_marks, abandoned, expired.
  destruct (host_sid meta), (client_sid meta); naive_solver.
Qed.

Lemma elem_of_cleanup_scan now items acc k :
  k ∈ cleanup_scan now items acc ↔
  k ∈ acc ∨ ∃ meta, (k, meta) ∈ items ∧ cleanup_marks now meta = true.
Proof.
  revert acc. induction items as [|[rid meta] rest IH]; intros acc.
  - cbn [cleanup_scan]. split; [by left|].
    intros [?|(? & []%not_elem_of_nil & _)]; done.
  - assert (Hstep : cleanup_scan now ((rid, meta) :: rest) acc =
      cleanup_scan now rest
        (if cleanup_marks now meta then acc ++ [rid] else acc)).
    { cbn [cleanup_scan]. unfold cleanup_marks.
      destruct (host_sid meta), (client_sid meta); try done;
        by destruct (_ <? _)%float. }
    rewrite Hstep, IH. setoid_rewrite elem_of_cons.
    destruct (cleanup_marks now meta) eqn:Hm.
    + rewrite elem_of_app, list_elem_of_singleton. naive_solver.
    + split; [naive_solver|].
      intros [?|(m & [[= -> ->]|?] & Hk)]; [by left|congruence|naive_solver].
Qed.

Lemma for_each_cleanup_delete l w :
  ∃ w',
    for_each l cleanup_delete w = Returns (tt, w') ∧
    (∀ k, rooms w' !! k = if decide (k ∈ l) then None else rooms w !! k) ∧
    (∀ k, k ∈ room_locks w' ↔
          k ∈ room_locks w ∧ ¬ (k ∈ l ∧ is_Some (rooms w !! k))) ∧
    outbox w' = outbox w ∧ clock w' = clock w ∧ ticks w' = ticks w ∧
    tokens w' = tokens w ∧ draws w' = draws w.
Proof.
  revert w. induction l as [|rid l IH]; intros w.
  - exists w. cbn [for_each]. split; [done|]. split.
    + intros k. rewrite decide_False; [done|apply not_elem_of_nil].
    + split; [|done]. intros k. split; [|naive_solver].
      intros Hk. split; [done|]. by intros [[]%not_elem_of_nil _].
  - cbn [for_each]. unfold bind at 1, cleanup_delete at 1.
    destruct (rooms w !! rid) as [r|] eqn:Hr.
    + destruct (IH (with_room_locks (room_locks w ∖ {[rid]})
                      (with_rooms (delete rid (rooms w)) w)))
        as (w' & Hrun & Hrooms & Hlocks & Hrest).
      exists w'. split; [done|]. cbn [rooms room_locks with_rooms
        with_room_locks outbox clock ticks tokens draws] in *.
      split; [|split; [|done]].
      * intros k. rewrite Hrooms, lookup_delete.
        repeat case_decide; try done;
          rewrite elem_of_cons in *; naive_solver.
      * intros k. rewrite Hlocks, lookup_delete, elem_of_difference,
          elem_of_singleton, elem_of_cons.
        destruct (decide (k = rid)) as [->|Hne].
        -- rewrite decide_True by done. naive_solver.
        -- rewrite decide_False by done. naive_solver.
    + destruct (IH w) as (w' & Hrun & Hrooms & Hlocks & Hrest).
      exists w'. split; [done|]. split; [|split; [|done]].
      * intros k. rewrite Hrooms.
        repeat case_decide; try done;
          rewrite elem_of_cons in *; naive_solver.
      * intros k. rewrite Hlocks, elem_of_cons.
        destruct (decide (k = rid)) as [->|Hne]; [|naive_solver].
        rewrite Hr. split; [|naive_solver].
        intros [? ?]. split; [done|]. by intros [_ [? [=]]].
Qed.

Lemma cleanup_worker_rooms w :
  ∃ w',
    cleanup_worker w = Returns (tt, w') ∧
    (∀ k, rooms w' !! k =
          match rooms w !! k with
          | Some meta =>
              if cleanup_marks (clock w (ticks w)) meta then None else Some meta
          | None => None
          end) ∧
    (∀ k, k ∈ room_locks w' ↔
          k ∈ room_locks w ∧ rooms w' !! k = rooms w !! k) ∧
    outbox w' = outbox w.
Proof.
  unfold cleanup_worker. hsimpl.
  set (now := clock w (ticks w)).
  set (l := cleanup_scan now (map_to_list (rooms w)) []).
  destruct (for_each_cleanup_delete l (with_ticks (S (ticks w)) w))
    as (w' & Hrun & Hrooms & Hlocks & Hout & _).
  cbn [rooms room_locks outbox with_ticks] in *.
  assert (Hl : ∀ k, k ∈ l ↔
    ∃ meta, rooms w !! k = Some meta ∧ cleanup_marks now meta = true).
  { intros k. unfold l. rewrite elem_of_cleanup_scan.
    setoid_rewrite elem_of_map_to_list.
    split; [intros [[]%not_elem_of_nil|?]; done | by right]. }
  assert (Hk : ∀ k, rooms w' !! k =
    match rooms w !! k with
    | Some meta => if cleanup_marks now meta then None else Some meta
    | None => None
    end).
  { intros k. rewrite Hrooms. case_decide as Hin.
    - apply Hl in Hin as (meta & -> & ->). done.
    - destruct (rooms w !! k) as [meta|] eqn:Hr; [|done].
      destruct (cleanup_marks now meta) eqn:Hm; [|done].
      destruct Hin. apply Hl. eauto. }
  exists w'. split; [done|]. split; [done|]. split; [|done].
  intros k. rewrite Hlocks, Hk, Hl.
  destruct (rooms w !! k) as [meta|] eqn:Hr.
  - destruct (cleanup_marks now meta) eqn:Hm.
    + split; [|by intros [_ [=]]]. intros [_ []]. eauto.
    + split; [by intros [? _]|]. intros [? _]. split; [done|].
      intros [(m & [= <-] & ?) _]. congruence.
  - split; [by intros [? _]|]. intros [? _]. split; [done|].
    by intros [_ [? [=]]].
Qed.

(** C7 (sweep reclamation): one pass of [cleanup_worker] returns and, with
    [now] the reading of [time.time()] it starts with, removes from [rooms]
    every room that is abandoned (both slots [None]) or expired
    ([now - last_active > ROOM_TTL_SECONDS], one hour), occupied or not;
    every other room stays in [rooms] with all its fields, and no room
    appears. *)
Theorem cleanup_worker_reclaims w :
  ROOM_TTL_SECONDS = 3600%float ∧
  ∃ w',
    cleanup_worker w = Returns (tt, w') ∧
    (∀ k meta, rooms w !! k = Some meta →
       abandoned meta ∨ expired (clock w (ticks w)) meta →
       rooms w' !! k = None) ∧
    (∀ k meta, rooms w !! k = Some meta →
       ¬ (abandoned meta ∨ expired (clock w (ticks w)) meta) →
       rooms w' !! k = Some meta) ∧
    (∀ k, rooms w !! k = None → rooms w' !! k = None) ∧
    (∀ k meta h, rooms w !! k = Some meta → host_sid meta = Some h →
       expired (clock w (ticks w)) meta → rooms w' !! k = None) ∧
    outbox w' = outbox w.
Proof.
  split; [reflexivity|].
  destruct (cleanup_worker_rooms w) as (w' & Hrun & Hrooms & _ & Hout).
  exists w'. split; [done|].
  assert (Hdel : ∀ k meta, rooms w !! k = Some meta →
    abandoned meta ∨ expired (clock w (ticks w)) meta → rooms w' !! k = None).
  { intros k meta Hr Hm%cleanup_marks_spec. by rewrite Hrooms, Hr, Hm. }
  split; [done|]. split; [|split; [|split; [|done]]].
  - intros k meta Hr Hm. rewrite Hrooms, Hr.
    destruct (cleanup_marks _ meta) eqn:Hc; [|done].
    by apply cleanup_marks_spec in Hc.
  - intros k Hr. by rewrite Hrooms, Hr.
  - intros k meta h Hr _ Hexp. apply (Hdel k meta); [done|by right].
Qed.

(** An occupied room whose last activity is more than an hour old is swept;
    a recent one and its fields stay. *)
Example cleanup_worker_demo :
  ∃ w',
    cleanup_worker
      (mkWorld {[ "old" := mkRoom (Some "H") (Some "C") "h" "f"
                             (mkState 1%float false) 10%float;
                  "new" := mkRoom (Some "H") None "h" "f"
                             (mkState 2%float true) 3000%float ]}
               {[ "old"; "new" ]} [] (λ _, 3610.5%float) 0 demo_tokens 0)
      = Returns (tt, w') ∧
    rooms w' = {[ "new" := mkRoom (Some "H") None "h" "f"
                             (mkState 2%float true) 3000%float ]} ∧
    room_locks w' = {[ "new" ]}.
Proof. eexists. split; [vm_compute; reflexivity|]. split; vm_compute; reflexivity. Qed.

(** *** Disconnection *)

Lemma disconnected_mono sid clk (t0 t1 t0' t1' : nat) r r' :
  (t0' ≤ t0)%nat → (t1 ≤ t1')%nat →
  disconnected sid clk t0 t1 r r' → disconnected sid clk t0' t1' r r'.
Proof.
  intros H0 H1 (Hh & Hc & Hv & Hf & Hs & Hla & Hsame).
  repeat (split; [done|]). split; [|done].
  intros Hch. destruct (Hla Hch) as (n & Hn & Heq). exists n. split; [lia|done].
Qed.

Lemma disconnect_meta_spec sid meta w :
  ∃ meta' w',
    disconnect_meta sid meta w = Returns (meta', w') ∧
    rooms w' = rooms w ∧ room_locks w' = room_locks w ∧
    outbox w' = outbox w ∧ clock w' = clock w ∧
    tokens w' = tokens w ∧ draws w' = draws w ∧
    (ticks w ≤ ticks w')%nat ∧
    disconnected sid (clock w) (ticks w) (ticks w') meta meta'.
Proof.
  unfold disconnect_meta, disconnected.
  destruct meta as [h c v f s la]. cbn [host_sid client_sid].
  destruct (decide (h = Some sid)) as [Hh|Hh]; hnorm;
    destruct (decide (c = Some sid)) as [Hc|Hc]; hsimpl;
    eexists _, _; (split; [reflexivity|]); hnorm;
    repeat (split; [done || lia|]);
    (split; [|by intros ? ?]); intros Hch;
    first [ by destruct Hch | exists (ticks w); split; [lia|done] ].
Qed.

Lemma for_each_disconnect sid (l : list (string * Room)) w :
  NoDup l.*1 →
  (∀ k r, (k, r) ∈ l → rooms w !! k = Some r) →
  ∃ w',
    for_each l (λ item,
      meta ← disconnect_meta sid item.2; store_meta item.1 meta) w
      = Returns (tt, w') ∧
    room_locks w' = room_locks w ∧ outbox w' = outbox w ∧
    clock w' = clock w ∧ tokens w' = tokens w ∧ draws w' = draws w ∧
    (ticks w ≤ ticks w')%nat ∧
    (∀ k, k ∉ l.*1 → rooms w' !! k = rooms w !! k) ∧
    (∀ k r, (k, r) ∈ l →
       ∃ r', rooms w' !! k = Some r' ∧
             disconnected sid (clock w) (ticks w) (ticks w') r r').
Proof.
  revert w. induction l as [|[k0 r0] l IH]; intros w Hnd Hl.
  - exists w. cbn [for_each]. repeat (split; [done|]).
    intros k r []%not_elem_of_nil.
  - apply NoDup_cons in Hnd as [Hk0 Hnd]. cbn [for_each fst snd].
    destruct (disconnect_meta_spec sid r0 w)
      as (meta' & w1 & Hrun1 & Hr1 & Hlk1 & Ho1 & Hc1 & Htk1 & Hd1 & Ht1 & Hrel1).
    unfold bind at 1. unfold bind at 1. rewrite Hrun1.
    unfold store_meta at 1.
    destruct (IH (with_rooms (alter (λ _, meta') k0 (rooms w1)) w1))
      as (w' & Hrun & Hlk & Ho & Hc & Htk & Hd & Ht & Hout & Hin); [done| |].
    { intros k r Hkr. cbn [rooms with_rooms].
      rewrite lookup_alter_ne, Hr1.
      - apply Hl. by right.
      - intros ->. apply Hk0. apply list_elem_of_fmap. by exists (k, r). }
    cbn [rooms room_locks outbox clock ticks tokens draws with_rooms] in *.
    exists w'. split; [done|].
    repeat (split; [congruence || lia|]). split.
    + intros k [Hne Hk]%not_elem_of_cons.
      rewrite Hout by done. by rewrite lookup_alter_ne, Hr1.
    + intros k r [[= -> ->]|Hkr]%elem_of_cons.
      * exists meta'. split.
        -- rewrite Hout by done. rewrite lookup_alter_eq, Hr1.
           rewrite (Hl k0 r0) by left. done.
        -- eapply disconnected_mono; [| |done]; lia.
      * destruct (Hin k r Hkr) as (r' & Hr' & Hrel).
        exists r'. split; [done|]. rewrite Hc1 in Hrel.
        eapply disconnected_mono; [| |done]; lia.
Qed.

(** C8 (disconnect frame property): [handle_disconnect sid] returns; it
    removes no room and adds none; in every room it sets to [None] each
    slot holding [sid], keeps video_hash, filename and state, and sets
    last_active to a reading of [time.time()] taken during the handler when
    a slot was cleared; a room with [sid] in no slot is exactly as before.
    Nothing is emitted. *)
Theorem disconnect_clears_slots_only w sid :
  ∃ w',
    handle_disconnect sid w = Returns (tt, w') ∧
    (∀ k, rooms w !! k = None → rooms w' !! k = None) ∧
    (∀ k r, rooms w !! k = Some r →
       ∃ r', rooms w' !! k = Some r' ∧
         host_sid r' = (if decide (host_sid r = Some sid) then None else host_sid r) ∧
         client_sid r' =
           (if decide (client_sid r = Some sid) then None else client_sid r) ∧
         video_hash r' = video_hash r ∧
         filename r' = filename r ∧
         state r' = state r ∧
         (host_sid r = Some sid ∨ client_sid r = Some sid →
            ∃ n, ticks w ≤ n < ticks w' ∧ last_active r' = clock w n) ∧
         (host_sid r ≠ Some sid → client_sid r ≠ Some sid → r' = r)) ∧
    room_locks w' = room_locks w ∧
    outbox w' = outbox w.
Proof.
  unfold handle_disconnect. unfold bind at 1, get_rooms at 1.
  destruct (for_each_disconnect sid (map_to_list (rooms w)) w)
    as (w' & Hrun & Hlk & Ho & _ & _ & _ & _ & Hout & Hin).
  { apply NoDup_fst_map_to_list. }
  { intros k r. apply elem_of_map_to_list. }
  exists w'. split; [done|]. split; [|split; [|done]].
  - intros k Hk. rewrite Hout; [done|].
    intros [[k' r] [-> Hkr]]%list_elem_of_fmap.
    apply elem_of_map_to_list in Hkr. cbn in Hk. congruence.
  - intros k r Hr. apply Hin. by apply elem_of_map_to_list.
Qed.

(** *** Sequences of control and state_update events *)

Lemma for_each_app {A} (l1 l2 : list A) (body : A -> M unit) w :
  for_each (l1 ++ l2) body w =
  (for_each l1 body ;; for_each l2 body) w.
Proof.
  revert w. induction l1 as [|x l1 IH]; intros w; [done|].
  cbn [for_each app]. unfold bind in *.
  destruct (body x w) as [[[] w1]| |]; [|done..].
  apply IH.
Qed.

Lemma handle_control_dropped w sid data :
  (∀ room_id, truthy (ct_room_id data) = Some room_id →
              rooms w !! room_id = None) →
  handle_control sid data w = Returns (tt, w).
Proof.
  intros Hno. unfold handle_control. hsimpl.
  destruct (truthy (ct_room_id data)) as [room_id|]; [|done].
  by rewrite if_not_in_rooms by auto.
Qed.

Lemma handle_state_update_dropped w sid data :
  (∀ room_id, truthy (su_room_id data) = Some room_id →
              rooms w !! room_id = None) →
  handle_state_update sid data w = Returns (tt, w).
Proof.
  intros Hno. unfold handle_state_update. hsimpl.
  destruct (truthy (su_room_id data)) as [room_id|]; [|done].
  by rewrite if_not_in_rooms by auto.
Qed.

Lemma control_write_sync sid d s :
  control_write d s = sync_write (OnControl sid d) s.
Proof.
  unfold control_write, sync_write, written_time, written_paused.
  by repeat case_decide.
Qed.

Lemma sync_step fuel i w :
  sync_event i →
  locks_cover_rooms w →
  ∃ w',
    dispatch fuel i w = Returns (tt, w') ∧
    room_locks w' = room_locks w ∧
    clock w' = clock w ∧
    (∀ k, rooms w' !! k =
          match rooms w !! k with
          | Some r =>
              Some (if decide (addressed_room i = Some k)
                    then mkRoom (host_sid r) (client_sid r) (video_hash r)
                           (filename r) (sync_write i (state r))
                           (clock w (ticks w))
                    else r)
          | None => None
          end).
Proof.
  intros Hsync Hlocks.
  destruct (addressed_room i) as [room_id|] eqn:Haddr.
  - destruct (rooms w !! room_id) as [r|] eqn:Hr.
    + assert (Hat : ∀ v, truthy v = Some room_id →
                         v = Some room_id ∧ room_at w room_id r).
      { intros v [-> Hne]%truthy_inv. split; [done|].
        split; [done|]. split; [done|]. apply Hlocks. by exists r. }
      destruct i as [| |sid d|sid d| | | | | |]; try done;
        cbn [addressed_room dispatch] in *;
        destruct (Hat _ Haddr) as [Hid Hroom]; eexists.
      * split; [by apply (handle_control_at _ _ _ room_id r)|].
        cbn [rooms room_locks clock]. split; [done|]. split; [done|].
        intros k. destruct (decide (room_id = k)) as [<-|Hne].
        -- rewrite lookup_insert_eq, Hr, decide_True by done.
           by rewrite control_write_sync with (sid := sid).
        -- rewrite lookup_insert_ne by done.
           destruct (rooms w !! k); [|done].
           rewrite decide_False; [done|congruence].
      * split; [by apply (handle_state_update_at _ _ _ room_id r)|].
        cbn [rooms room_locks clock]. split; [done|]. split; [done|].
        intros k. destruct (decide (room_id = k)) as [<-|Hne].
        -- by rewrite lookup_insert_eq, Hr, decide_True.
        -- rewrite lookup_insert_ne by done.
           destruct (rooms w !! k); [|done].
           rewrite decide_False; [done|congruence].
    + exists w. split.
      * destruct i as [| |sid d|sid d| | | | | |]; try done;
          cbn [addressed_room dispatch] in *.
        -- apply handle_control_dropped. intros ? ?. congruence.
        -- apply handle_state_update_dropped. intros ? ?. congruence.
      * split; [done|]. split; [done|]. intros k.
        destruct (rooms w !! k) eqn:Hk; [|done].
        rewrite decide_False; [done|]. intros [= ->]. congruence.
  - exists w. split.
    + destruct i as [| |sid d|sid d| | | | | |]; try done;
        cbn [addressed_room dispatch] in *.
      * apply handle_control_dropped. intros ? ?. congruence.
      * apply handle_state_update_dropped. intros ? ?. congruence.
    + split; [done|]. split; [done|]. intros k.
      by destruct (rooms w !! k).
Qed.

Lemma sync_run fuel l w :
  Forall sync_event l →
  locks_cover_rooms w →
  ∃ w',
    run fuel l w = Returns (tt, w') ∧
    locks_cover_rooms w' ∧
    (∀ k, is_Some (rooms w' !! k) ↔ is_Some (rooms w !! k)) ∧
    (∀ k, Forall (λ i, addressed_room i ≠ Some k) l →
          rooms w' !! k = rooms w !! k).
Proof.
  unfold run. intros Hl. revert w.
  induction Hl as [|i l Hi Hl IH]; intros w Hlocks.
  - exists w. cbn [for_each]. done.
  - destruct (sync_step fuel i w Hi Hlocks) as (w1 & Hrun1 & Hlk1 & _ & Hr1).
    assert (Hdom1 : ∀ k, is_Some (rooms w1 !! k) ↔ is_Some (rooms w !! k)).
    { intros k. rewrite Hr1. destruct (rooms w !! k); [|done].
      split; eauto. }
    assert (Hlocks1 : locks_cover_rooms w1).
    { intros k Hk. rewrite Hlk1. by apply Hlocks, Hdom1. }
    destruct (IH w1 Hlocks1) as (w' & Hrun & Hlocks' & Hdom & Hframe).
    exists w'. cbn [for_each]. unfold bind. rewrite Hrun1.
    split; [done|]. split; [done|]. split.
    + intros k. by rewrite Hdom, Hdom1.
    + intros k [Hne Hrest]%Forall_cons. rewrite Hframe, Hr1 by done.
      destruct (rooms w !! k); [|done]. by rewrite decide_False.
Qed.

(** C6 (playback state, last writer wins).  On an existing room a control
    event returns, sets paused to false for play and to true for pause,
    stores the reported time whatever the action, and sets last_active to
    the reading of [time.time()]; a state_update stores the time and the
    paused flag of its payload.  And for every sequence of control and
    state_update events, from any senders and for any rooms, run one after
    the other: when [i] is the last event of the sequence that addresses the
    room, the room's playback state at the end is the state found by [i]
    with the fields [i] writes overwritten. *)
Theorem playback_last_writer_wins :
  (∀ w sid d room_id r,
     ct_room_id d = Some room_id →
     room_at w room_id r →
     ∃ w' r',
       handle_control sid d w = Returns (tt, w') ∧
       rooms w' !! room_id = Some r' ∧
       (ct_action d = Some "play" → paused (state r') = false) ∧
       (ct_action d = Some "pause" → paused (state r') = true) ∧
       (ct_action d ≠ Some "play" → ct_action d ≠ Some "pause" →
        paused (state r') = paused (state r)) ∧
       (∀ t, ct_time d = Some t → time (state r') = t) ∧
       last_active r' = clock w (ticks w)) ∧
  (∀ w sid d room_id r t p,
     su_room_id d = Some room_id →
     room_at w room_id r →
     su_time d = Some t → su_paused d = Some p →
     ∃ w' r',
       handle_state_update sid d w = Returns (tt, w') ∧
       rooms w' !! room_id = Some r' ∧
       state r' = mkState t p ∧
       last_active r' = clock w (ticks w)) ∧
  (∀ fuel w room_id r before i after,
     locks_cover_rooms w →
     rooms w !! room_id = Some r →
     Forall sync_event before → sync_event i → Forall sync_event after →
     addressed_room i = Some room_id →
     Forall (λ j, addressed_room j ≠ Some room_id) after →
     ∃ w1 r1 w3 r3,
       run fuel before w = Returns (tt, w1) ∧
       rooms w1 !! room_id = Some r1 ∧
       run fuel (before ++ i :: after) w = Returns (tt, w3) ∧
       rooms w3 !! room_id = Some r3 ∧
       time (state r3) = default (time (state r1)) (written_time i) ∧
       paused (state r3) = default (paused (state r1)) (written_paused i)).
Proof.
  split; [|split].
  - intros w sid d room_id r Hid Hat. eexists _, _.
    split; [by apply (handle_control_at _ _ _ room_id r)|].
    cbn [rooms]. rewrite lookup_insert_eq. split; [done|].
    unfold control_write. cbn [state paused time last_active].
    repeat split.
    + intros Hp. by rewrite decide_True.
    + intros Hp. rewrite decide_False, decide_True; [done..|].
      rewrite Hp. discriminate.
    + intros Hp1 Hp2. by rewrite !decide_False.
    + by intros t ->.
  - intros w sid d room_id r t p Hid Hat Ht Hp. eexists _, _.
    split; [by apply (handle_state_update_at _ _ _ room_id r)|].
    cbn [rooms]. rewrite lookup_insert_eq. split; [done|].
    unfold heartbeat_write. by rewrite Ht, Hp.
  - intros fuel w room_id r before i after Hlocks Hr Hb Hi Ha Haddr Hother.
    destruct (sync_run fuel before w Hb Hlocks)
      as (w1 & Hrun1 & Hlocks1 & Hdom1 & _).
    destruct (sync_step fuel i w1 Hi Hlocks1) as (w2 & Hrun2 & Hlk2 & _ & Hr2).
    assert (Hlocks2 : locks_cover_rooms w2).
    { intros k Hk. rewrite Hlk2. apply Hlocks1.
      rewrite Hr2 in Hk. destruct (rooms w1 !! k); [eauto|by destruct Hk]. }
    destruct (sync_run fuel after w2 Ha Hlocks2)
      as (w3 & Hrun3 & _ & _ & Hframe).
    destruct (proj2 (Hdom1 room_id)) as [r1 Hr1]; [by exists r|].
    exists w1, r1, w3. eexists.
    split; [done|]. split; [done|]. split.
    + unfold run in *. rewrite for_each_app. unfold bind. rewrite Hrun1.
      cbn [for_each]. unfold bind. by rewrite Hrun2.
    + split.
      * rewrite Hframe, Hr2, Hr1 by done. by rewrite decide_True.
      * done.
Qed.

Lemma demo_locks_cover_rooms : locks_cover_rooms demo_world.
Proof.
  intros k [r Hr]. unfold demo_world in *. cbn [rooms room_locks] in *.
  apply lookup_singleton_Some in Hr as [<- _].
  by apply elem_of_singleton.
Defined.

Lemma playback_last_writer_wins_witness :
  ∃ w1 r1 w3 r3,
    run 0 demo_before demo_world = Returns (tt, w1) ∧
    rooms w1 !! demo_id = Some r1 ∧
    run 0 (demo_before ++ demo_last :: demo_after) demo_world
      = Returns (tt, w3) ∧
    rooms w3 !! demo_id = Some r3 ∧
    time (state r3) = default (time (state r1)) (written_time demo_last) ∧
    paused (state r3) = default (paused (state r1)) (written_paused demo_last).
Proof.
  apply (proj2 (proj2 playback_last_writer_wins) 0 demo_world demo_id demo_room).
  - exact demo_locks_cover_rooms.
  - apply lookup_singleton_eq.
  - repeat constructor.
  - exact I.
  - repeat constructor.
  - reflexivity.
  - repeat constructor. vm_compute. discriminate.
Defined.

(** *** Every room has its lock in every reachable state *)

Section Preservation.
Context (P : World -> Prop).

Lemma preserves_ret {A} (a : A) : preserves P (ret a).
Proof. intros w a' w' HP [= _ <-]. done. Qed.

Lemma preserves_bind {A B} (m : M A) (f : A -> M B) :
  preserves P m → (∀ a, preserves P (f a)) → preserves P (bind m f).
Proof.
  intros Hm Hf w b w' HP. unfold bind.
  destruct (m w) as [[a w1]| |] eqn:Hrun; [|done..].
  intros Hrun'. eapply Hf; [|done]. by eapply Hm.
Qed.

Lemma preserves_for_each {A} (l : list A) (body : A -> M unit) :
  (∀ x, preserves P (body x)) → preserves P (for_each l body).
Proof.
  intros Hbody. induction l as [|x l IH]; cbn [for_each].
  - apply preserves_ret.
  - apply preserves_bind; [apply Hbody|done].
Qed.

Lemma preserves_with_lock {A} room_id (body : M A) :
  preserves P body → preserves P (with_lock room_id body).
Proof.
  intros Hbody w a w' HP. unfold with_lock. case_decide; [|done].
  by apply Hbody.
Qed.
End Preservation.

















(** ** Further properties of the handlers *)

(** *** create_room *)

(** X1 (create_room without metadata): when ['video_hash'] or ['filename']
    is missing or empty, [handle_create_room] answers the requester with
    one [error] "Missing video metadata" and does nothing else: no room, no
    lock, no token drawn, no clock read. *)
Theorem create_room_missing_metadata fuel w sid data :
  truthy (cr_video_hash data) = None ∨ truthy (cr_filename data) = None →
  handle_create_room fuel sid data w =
  Returns (tt, with_outbox
                 (outbox w ++ [Emit "error" (Message "Missing video metadata") sid])
                 w).
Proof.
  intros Hmiss. unfold handle_create_room.
  destruct (truthy (cr_video_hash data)) as [vhash|];
    destruct (truthy (cr_filename data)) as [fname|]; try done.
  by destruct Hmiss.
Qed.

Lemma create_room_missing_metadata_witness :
  handle_create_room 0 "H" (mkCreate (Some "") (Some "movie.mp4")) demo_world =
  Returns (tt, with_outbox
                 (outbox demo_world ++
                    [Emit "error" (Message "Missing video metadata") "H"])
                 demo_world).
Proof.
  apply (create_room_missing_metadata 0 demo_world "H").
  left. reflexivity.
Defined.

(** X2 (create_room, fresh id): the handler tries the tokens it draws one
    after the other and stops at the first that is not a key of [rooms].
    When that is the [n]-th and the fuel reaches it, the handler returns
    having drawn [n + 1] tokens; the new room is stored under that token
    with the requester as host, no client, the given hash and filename,
    state [{0.0, True}] and last_active the clock reading; its lock is
    added; every room that existed is still there, unchanged; the requester
    is subscribed and told [room_created]. *)
Theorem create_room_takes_first_unused_token n fuel w sid data vhash fname :
  (n ≤ fuel)%nat →
  truthy (cr_video_hash data) = Some vhash →
  truthy (cr_filename data) = Some fname →
  (∀ j, (j < n)%nat → is_Some (rooms w !! candidate w j)) →
  rooms w !! candidate w n = None →
  ∃ w',
    handle_create_room fuel sid data w = Returns (tt, w') ∧
    rooms w' = <[candidate w n :=
                   mkRoom (Some sid) None vhash fname (mkState 0%float true)
                          (clock w (ticks w))]> (rooms w) ∧
    (∀ k r, rooms w !! k = Some r → rooms w' !! k = Some r) ∧
    room_locks w' = {[candidate w n]} ∪ room_locks w ∧
    outbox w' = outbox w ++
      [JoinRoom sid (candidate w n);
       Emit "room_created" (RoomCreated (candidate w n) fname) sid] ∧
    draws w' = (draws w + S n)%nat ∧
    ticks w' = S (ticks w).
Proof.
  intros Hn Hv Hf Hused Hfree.
  unfold handle_create_room. rewrite Hv, Hf. hsimpl.
  rewrite (retry_room_id_returns n fuel (with_draws (S (draws w)) w)
             (tokens w (draws w))); [|done| |].
  - assert (Hid : match n with
                  | O => tokens w (draws w)
                  | S n' => candidate (with_draws (S (draws w)) w) n'
                  end = candidate w n).
    { unfold candidate. cbn [tokens draws with_draws].
      destruct n; f_equal; lia. }
    rewrite Hid. hsimpl. hnorm. eexists. split; [reflexivity|].
    cbn [rooms room_locks outbox draws ticks].
    split; [done|]. split.
    + intros k r Hk. rewrite lookup_insert_ne; [done|]. intros <-. congruence.
    + split; [done|]. split; [by rewrite <- app_assoc|]. split; [lia|done].
  - intros j Hj. specialize (Hused j Hj). unfold candidate in *.
    cbn [rooms tokens draws with_draws].
    destruct j; [by rewrite Nat.add_0_r in Hused|].
    by replace (S (draws w) + j) with (draws w + S j) by lia.
  - unfold candidate in *. cbn [rooms tokens draws with_draws].
    destruct n; [by rewrite Nat.add_0_r in Hfree|].
    by replace (S (draws w) + n) with (draws w + S n) by lia.
Qed.

Lemma create_room_takes_first_unused_token_witness :
  ∃ w',
    handle_create_room 1 "A" (mkCreate (Some "h2") (Some "b.mp4"))
      (with_draws 0 demo_world) = Returns (tt, w') ∧
    rooms w' = <[candidate (with_draws 0 demo_world) 1 :=
                   mkRoom (Some "A") None "h2" "b.mp4" (mkState 0%float true)
                          (clock demo_world 3)]> (rooms demo_world) ∧
    (∀ k r, rooms demo_world !! k = Some r → rooms w' !! k = Some r) ∧
    room_locks w' = {[candidate (with_draws 0 demo_world) 1]} ∪ room_locks demo_world ∧
    outbox w' = outbox demo_world ++
      [JoinRoom "A" (candidate (with_draws 0 demo_world) 1);
       Emit "room_created"
         (RoomCreated (candidate (with_draws 0 demo_world) 1) "b.mp4") "A"] ∧
    draws w' = 2 ∧
    ticks w' = 4.
Proof.
  apply (create_room_takes_first_unused_token 1 1 (with_draws 0 demo_world) "A"
           (mkCreate (Some "h2") (Some "b.mp4")) "h2" "b.mp4").
  - lia.
  - reflexivity.
  - reflexivity.
  - intros j Hj. assert (j = 0) as -> by lia. exists demo_room.
    apply lookup_singleton_eq.
  - vm_compute. reflexivity.
Defined.

(** *** join_room, before the lock *)

(** X3 (join_room on a missing or unknown room): a join whose ['room_id']
    is missing or empty is answered by [error] "Missing room id"; a join
    whose room id is not a key of [rooms] is answered by [error]
    "Room <id> not found".  In both cases the error goes to the requester
    and nothing else changes; no lock is looked up. *)
Theorem join_room_without_room :
  (∀ w sid data,
     truthy (jn_room_id data) = None →
     handle_join_room sid data w =
     Returns (tt, with_outbox
                    (outbox w ++ [Emit "error" (Message "Missing room id") sid]) w)) ∧
  (∀ w sid data room_id,
     truthy (jn_room_id data) = Some room_id →
     rooms w !! room_id = None →
     handle_join_room sid data w =
     Returns (tt, with_outbox
       (outbox w ++
          [Emit "error" (Message ("Room " ++ room_id ++ " not found")%string) sid])
       w)).
Proof.
  split.
  - intros w sid data Hid. unfold handle_join_room. by rewrite Hid.
  - intros w sid data room_id Hid Hr. unfold handle_join_room. rewrite Hid.
    hsimpl. by rewrite if_not_in_rooms.
Qed.

Lemma join_room_without_room_witness :
  handle_join_room "C" (mkJoin (Some "nowhere") (Some "abc123")) demo_world =
  Returns (tt, with_outbox
    (outbox demo_world ++
       [Emit "error" (Message "Room nowhere not found") "C"])
    demo_world).
Proof.
  apply (proj2 join_room_without_room demo_world "C" _ "nowhere").
  - reflexivity.
  - vm_compute. reflexivity.
Defined.

(** *** What a handler that returns has done to [rooms] *)

Lemma retry_room_id_spec fuel room_id w :
  match retry_room_id fuel room_id w with
  | Returns (room_id', w') =>
      ∃ d, (draws w ≤ d)%nat ∧ w' = with_draws d w ∧
           rooms w !! room_id' = None ∧
           (room_id' = room_id ∨
            ∃ n, (draws w ≤ n < d)%nat ∧ room_id' = tokens w n)
  | Raises _ => False
  | OutOfFuel => True
  end.
Proof.
  revert room_id w. induction fuel as [|fuel IH]; intros room_id w;
    cbn [retry_room_id]; hsimpl; case_decide as Hin; try done.
  - exists (draws w). split; [done|]. split; [by destruct w|].
    split; [by apply not_elem_of_dom|by left].
  - specialize (IH (tokens w (draws w)) (with_draws (S (draws w)) w)).
    destruct (retry_room_id fuel _ _) as [[room_id' w']| |]; [|done..].
    destruct IH as (d & Hd & -> & Hfree & Hwhich).
    cbn [rooms tokens draws with_draws] in *.
    exists d. split; [lia|]. split; [done|]. split; [done|]. right.
    destruct Hwhich as [->|(n & Hn & ->)].
    + exists (draws w). split; [lia|done].
    + exists n. split; [lia|done].
  - exists (draws w). split; [done|]. split; [by destruct w|].
    split; [by apply not_elem_of_dom|by left].
Qed.

Lemma handle_create_room_cases fuel sid data w :
  match handle_create_room fuel sid data w with
  | Returns (_, w') =>
      (rooms w' = rooms w ∧ room_locks w' = room_locks w ∧
       tokens w' = tokens w ∧ draws w' = draws w) ∨
      ∃ room_id vhash fname n,
        truthy (cr_video_hash data) = Some vhash ∧
        truthy (cr_filename data) = Some fname ∧
        rooms w !! room_id = None ∧
        (draws w ≤ n < draws w')%nat ∧ room_id = tokens w n ∧
        tokens w' = tokens w ∧
        rooms w' = <[room_id := mkRoom (Some sid) None vhash fname
                       (mkState 0%float true) (clock w (ticks w))]> (rooms w) ∧
        room_locks w' = {[room_id]} ∪ room_locks w
  | Raises _ => False
  | OutOfFuel => True
  end.
Proof.
  unfold handle_create_room.
  destruct (truthy (cr_video_hash data)) as [vhash|]; [|by left].
  destruct (truthy (cr_filename data)) as [fname|]; [|by left].
  hsimpl.
  pose proof (retry_room_id_spec fuel (tokens w (draws w))
                (with_draws (S (draws w)) w)) as Hretry.
  destruct (retry_room_id fuel _ _) as [[room_id w1]| |]; [|done..].
  destruct Hretry as (d & Hd & -> & Hfree & Hwhich).
  cbn [rooms tokens draws with_draws] in *. hsimpl. hnorm. right.
  assert (∃ n, (draws w ≤ n < d)%nat ∧ room_id = tokens w n)
    as (n & Hn & Hid).
  { destruct Hwhich as [->|(n & Hn & ->)].
    - exists (draws w). split; [lia|done].
    - exists n. split; [lia|done]. }
  exists room_id, vhash, fname, n. split_and!; try done; lia.
Qed.

Lemma handle_join_room_cases sid data w :
  match handle_join_room sid data w with
  | Returns (_, w') =>
      room_locks w' = room_locks w ∧
      (rooms w' = rooms w ∨
       ∃ room_id r,
         room_at w room_id r ∧ client_sid r = None ∧
         jn_video_hash data = Some (video_hash r) ∧
         rooms w' = <[room_id := mkRoom (host_sid r) (Some sid) (video_hash r)
                        (filename r) (state r) (clock w (ticks w))]> (rooms w))
  | Raises _ => ∃ room_id, is_Some (rooms w !! room_id) ∧ room_id ∉ room_locks w
  | OutOfFuel => False
  end.
Proof.
  destruct (truthy (jn_room_id data)) as [room_id|] eqn:Ht.
  - apply truthy_inv in Ht as Hid. destruct Hid as [Hid Hne].
    destruct (rooms w !! room_id) as [r|] eqn:Hr.
    + destruct (decide (room_id ∈ room_locks w)) as [Hl|Hl].
      * assert (Hat : room_at w room_id r) by done.
        destruct (decide (client_sid r = None)) as [Hc|Hc].
        -- destruct (decide (jn_video_hash data = Some (video_hash r))) as [Hv|Hv].
           ++ rewrite (handle_join_room_at w sid data room_id r) by done.
              split; [done|]. right. by exists room_id, r.
           ++ rewrite (handle_join_room_mismatch w sid data room_id r) by done.
              split; [done|]. by left.
        -- rewrite (handle_join_room_full w sid data room_id r) by done.
           split; [done|]. by left.
      * unfold handle_join_room. rewrite Ht. hsimpl.
        rewrite (if_in_rooms _ _ r) by done.
        rewrite with_lock_missing by done. exists room_id. split; [eauto|done].
    + unfold handle_join_room. rewrite Ht. hsimpl.
      rewrite if_not_in_rooms by done. split; [done|]. by left.
  - unfold handle_join_room. rewrite Ht. split; [done|]. by left.
Qed.

Lemma handle_control_cases sid data w :
  match handle_control sid data w with
  | Returns (_, w') =>
      room_locks w' = room_locks w ∧
      (w' = w ∨
       ∃ room_id r,
         room_at w room_id r ∧ ct_room_id data = Some room_id ∧
         rooms w' = <[room_id := mkRoom (host_sid r) (client_sid r) (video_hash r)
                        (filename r) (control_write data (state r))
                        (clock w (ticks w))]> (rooms w))
  | Raises _ => ∃ room_id, is_Some (rooms w !! room_id) ∧ room_id ∉ room_locks w
  | OutOfFuel => False
  end.
Proof.
  destruct (truthy (ct_room_id data)) as [room_id|] eqn:Ht.
  - apply truthy_inv in Ht as Hid. destruct Hid as [Hid Hne].
    destruct (rooms w !! room_id) as [r|] eqn:Hr.
    + destruct (decide (room_id ∈ room_locks w)) as [Hl|Hl].
      * rewrite (handle_control_at w sid data room_id r) by done.
        split; [done|]. right. by exists room_id, r.
      * unfold handle_control. rewrite Ht. hsimpl.
        rewrite (if_in_rooms _ _ r) by done.
        rewrite with_lock_missing by done. exists room_id. split; [eauto|done].
    + rewrite handle_control_dropped; [split; [done|by left]|].
      intros ? ?. congruence.
  - rewrite handle_control_dropped; [split; [done|by left]|].
    intros ? ?. congruence.
Qed.

Lemma handle_state_update_cases sid data w :
  match handle_state_update sid data w with
  | Returns (_, w') =>
      room_locks w' = room_locks w ∧
      (w' = w ∨
       ∃ room_id r,
         room_at w room_id r ∧ su_room_id data = Some room_id ∧
         rooms w' = <[room_id := mkRoom (host_sid r) (client_sid r) (video_hash r)
                        (filename r) (heartbeat_write data)
                        (clock w (ticks w))]> (rooms w))
  | Raises _ => ∃ room_id, is_Some (rooms w !! room_id) ∧ room_id ∉ room_locks w
  | OutOfFuel => False
  end.
Proof.
  destruct (truthy (su_room_id data)) as [room_id|] eqn:Ht.
  - apply truthy_inv in Ht as Hid. destruct Hid as [Hid Hne].
    destruct (rooms w !! room_id) as [r|] eqn:Hr.
    + destruct (decide (room_id ∈ room_locks w)) as [Hl|Hl].
      * rewrite (handle_state_update_at w sid data room_id r) by done.
        split; [done|]. right. by exists room_id, r.
      * unfold handle_state_update. rewrite Ht. hsimpl.
        rewrite (if_in_rooms _ _ r) by done.
        rewrite with_lock_missing by done. exists room_id. split; [eauto|done].
    + rewrite handle_state_update_dropped; [split; [done|by left]|].
      intros ? ?. congruence.
  - rewrite handle_state_update_dropped; [split; [done|by left]|].
    intros ? ?. congruence.
Qed.

Lemma handle_signal_cases event key sid data w :
  ∃ new,
    handle_signal event key sid data w =
      Returns (tt, with_outbox (outbox w ++ new) w) ∧
    ((new = [] ∧
      (unknown_room w (sg_room_id data) ∨
       ∃ room_id r, truthy (sg_room_id data) = Some room_id ∧
                    rooms w !! room_id = Some r ∧
                    truthy (peer_target sid r) = None)) ∨
     ∃ room_id r target,
       truthy (sg_room_id data) = Some room_id ∧
       rooms w !! room_id = Some r ∧
       truthy (peer_target sid r) = Some target ∧
       new = [Emit event (Signal room_id key (sg_value data)) target]).
Proof.
  assert (Hsame : with_outbox (outbox w ++ []) w = w).
  { rewrite app_nil_r. by destruct w. }
  destruct (truthy (sg_room_id data)) as [room_id|] eqn:Ht.
  - apply truthy_inv in Ht as Hid. destruct Hid as [Hid Hne].
    destruct (rooms w !! room_id) as [r|] eqn:Hr.
    + rewrite (handle_signal_at event key w sid data room_id r) by done.
      unfold to_peer. destruct (truthy (peer_target sid r)) as [target|] eqn:Hp.
      * eexists. split; [reflexivity|]. right. by exists room_id, r, target.
      * exists []. split; [done|]. left. split; [done|]. right.
        by exists room_id, r.
    + exists []. rewrite Hsame. split.
      * unfold handle_signal. rewrite Ht. hsimpl. by rewrite if_not_in_rooms.
      * left. split; [done|]. left. intros ? ?. congruence.
  - exists []. rewrite Hsame. split.
    + unfold handle_signal. rewrite Ht. reflexivity.
    + left. split; [done|]. left. intros ? ?. congruence.
Qed.

Lemma handle_chat_message_cases sid data w :
  match handle_chat_message sid data w with
  | Returns (_, w') =>
      (w' = w ∧ unknown_room w (ch_room_id data)) ∨
      ∃ room_id r,
        room_at w room_id r ∧ truthy (ch_room_id data) = Some room_id ∧
        w' = with_outbox
               (outbox w ++ [Emit "chat_message" (Chat sid (ch_message data)) room_id])
               w
  | Raises _ => ∃ room_id, is_Some (rooms w !! room_id) ∧ room_id ∉ room_locks w
  | OutOfFuel => False
  end.
Proof.
  unfold handle_chat_message. hsimpl.
  destruct (truthy (ch_room_id data)) as [room_id|] eqn:Ht.
  - apply truthy_inv in Ht as Hid. destruct Hid as [Hid Hne].
    destruct (rooms w !! room_id) as [r|] eqn:Hr.
    + rewrite (if_in_rooms _ _ r) by done.
      destruct (decide (room_id ∈ room_locks w)) as [Hl|Hl].
      * rewrite with_lock_held by done. hsimpl. right.
        by exists room_id, r.
      * rewrite with_lock_missing by done. exists room_id. split; [eauto|done].
    + rewrite if_not_in_rooms by done. left. split; [done|].
      intros ? ?. congruence.
  - left. split; [done|]. intros ? ?. congruence.
Qed.

(** *** Events for a room that is not there *)

(** X4 (silent drop): a control, state_update, offer, answer,
    ice_candidate or chat_message whose ['room_id'] is missing, empty or
    not a key of [rooms] returns at once and leaves the whole server as it
    was: no error is sent (unlike join_room), no clock is read, no lock is
    looked up. *)
Theorem events_for_unknown_room_dropped w sid :
  (∀ d, unknown_room w (ct_room_id d) → handle_control sid d w = Returns (tt, w)) ∧
  (∀ d, unknown_room w (su_room_id d) →
        handle_state_update sid d w = Returns (tt, w)) ∧
  (∀ d, unknown_room w (sg_room_id d) →
        handle_offer sid d w = Returns (tt, w) ∧
        handle_answer sid d w = Returns (tt, w) ∧
        handle_ice_candidate sid d w = Returns (tt, w)) ∧
  (∀ d, unknown_room w (ch_room_id d) →
        handle_chat_message sid d w = Returns (tt, w)).
Proof.
  split; [|split; [|split]].
  - intros d Hno. by apply handle_control_dropped.
  - intros d Hno. by apply handle_state_update_dropped.
  - intros d Hno.
    assert (Hsig : ∀ event key, handle_signal event key sid d w = Returns (tt, w)).
    { intros event key. unfold handle_signal. hsimpl.
      destruct (truthy (sg_room_id d)) as [room_id|] eqn:Ht; [|done].
      by rewrite if_not_in_rooms by auto. }
    unfold handle_offer, handle_answer, handle_ice_candidate. by rewrite !Hsig.
  - intros d Hno. unfold handle_chat_message. hsimpl.
    destruct (truthy (ch_room_id d)) as [room_id|] eqn:Ht; [|done].
    by rewrite if_not_in_rooms by auto.
Qed.

(** *** Signaling and chat *)

(** X5 (signaling is a stateless relay): [handle_offer], [handle_answer]
    and [handle_ice_candidate] return in every state, even one without the
    room's lock, and change nothing but the outbox: they emit nothing, or
    one message under their own event name that carries the room id and
    the opaque value of the payload unchanged, addressed to the sender's
    peer. *)
Theorem signaling_is_a_stateless_relay :
  relays handle_offer "offer" "offer" ∧
  relays handle_answer "answer" "answer" ∧
  relays handle_ice_candidate "ice_candidate" "candidate".
Proof.
  repeat split; intros w sid data; apply handle_signal_cases.
Qed.

(** X6 (chat is broadcast): on an existing room [handle_chat_message]
    emits exactly one [chat_message], addressed to the room's group (not to
    a peer) and carrying the sender's connection id and the message; it
    asks for no membership of the sender and changes nothing else. *)
Theorem chat_message_goes_to_the_room w sid data room_id r :
  ch_room_id data = Some room_id →
  room_at w room_id r →
  handle_chat_message sid data w =
  Returns (tt, with_outbox
    (outbox w ++ [Emit "chat_message" (Chat sid (ch_message data)) room_id]) w).
Proof.
  intros Hid (Hne & Hr & Hl). unfold handle_chat_message. hsimpl.
  rewrite Hid, truthy_Some by done.
  rewrite (if_in_rooms _ _ r) by done.
  by rewrite with_lock_held by done.
Qed.

Lemma chat_message_goes_to_the_room_witness :
  handle_chat_message "X" (mkChat (Some demo_id) (Some "hi")) demo_world =
  Returns (tt, with_outbox
    (outbox demo_world ++ [Emit "chat_message" (Chat "X" (Some "hi")) demo_id])
    demo_world).
Proof.
  apply (chat_message_goes_to_the_room demo_world "X"
           (mkChat (Some demo_id) (Some "hi")) demo_id demo_room).
  - reflexivity.
  - exact demo_room_at.
Defined.

(** *** The whole of disconnect and of one sweep *)

Lemma handle_disconnect_spec sid w :
  ∃ w',
    handle_disconnect sid w = Returns (tt, w') ∧
    room_locks w' = room_locks w ∧ outbox w' = outbox w ∧
    clock w' = clock w ∧ tokens w' = tokens w ∧ draws w' = draws w ∧
    (ticks w ≤ ticks w')%nat ∧
    (∀ k, rooms w !! k = None → rooms w' !! k = None) ∧
    (∀ k r, rooms w !! k = Some r →
       ∃ r', rooms w' !! k = Some r' ∧
             disconnected sid (clock w) (ticks w) (ticks w') r r').
Proof.
  unfold handle_disconnect. unfold bind at 1, get_rooms at 1.
  destruct (for_each_disconnect sid (map_to_list (rooms w)) w)
    as (w' & Hrun & Hlk & Ho & Hc & Htk & Hd & Ht & Hout & Hin).
  { apply NoDup_fst_map_to_list. }
  { intros k r. apply elem_of_map_to_list. }
  exists w'. repeat (split; [done|]). split.
  - intros k Hk. rewrite Hout; [done|].
    intros [[k' r] [-> Hkr]]%list_elem_of_fmap.
    apply elem_of_map_to_list in Hkr. cbn in Hk. congruence.
  - intros k r Hr. apply Hin. by apply elem_of_map_to_list.
Qed.

Lemma cleanup_worker_spec w :
  ∃ w',
    cleanup_worker w = Returns (tt, w') ∧
    (∀ k, rooms w' !! k =
          match rooms w !! k with
          | Some meta =>
              if cleanup_marks (clock w (ticks w)) meta then None else Some meta
          | None => None
          end) ∧
    (∀ k, k ∈ room_locks w' ↔
          k ∈ room_locks w ∧ rooms w' !! k = rooms w !! k) ∧
    outbox w' = outbox w ∧ clock w' = clock w ∧ ticks w' = S (ticks w) ∧
    tokens w' = tokens w ∧ draws w' = draws w.
Proof.
  destruct (cleanup_worker_rooms w) as (w' & Hrun & Hrooms & Hlocks & Hout).
  exists w'. repeat (split; [done|]).
  revert Hrun. unfold cleanup_worker. hsimpl.
  destruct (for_each_cleanup_delete
              (cleanup_scan (clock w (ticks w)) (map_to_list (rooms w)) [])
              (with_ticks (S (ticks w)) w))
    as (w2 & Hrun2 & _ & _ & _ & Hc & Ht & Htk & Hd).
  rewrite Hrun2. intros [= <-]. done.
Qed.

(** *** No handler raises where every room has its lock *)




(** *** One input, one room *)

Lemma room_step_refl i r : room_step i r r.
Proof. unfold room_step. naive_solver. Qed.

Lemma dispatch_room_step fuel i w w' k r :
  dispatch fuel i w = Returns (tt, w') →
  rooms w !! k = Some r →
  (i = CleanupTurn ∧ rooms w' !! k = None) ∨
  ∃ r', rooms w' !! k = Some r' ∧ room_step i r r'.
Proof.
  intros Hrun Hk.
  destruct i as [sid d|sid d|sid d|sid d|sid d|sid d|sid d|sid d|sid|];
    cbn [dispatch] in Hrun.
  - pose proof (handle_create_room_cases fuel sid d w) as H.
    rewrite Hrun in H. right.
    destruct H as [(-> & _)|(room_id & vhash & fname & n & _ & _ & Hfree & _ & _ & _ & -> & _)].
    + exists r. split; [done|apply room_step_refl].
    + exists r. split; [|apply room_step_refl].
      rewrite lookup_insert_ne; [done|]. intros ->. congruence.
  - pose proof (handle_join_room_cases sid d w) as H.
    rewrite Hrun in H. right.
    destruct H as [_ [->|(room_id & r0 & (_ & Hr0 & _) & Hc & Hv & ->)]].
    + exists r. split; [done|apply room_step_refl].
    + destruct (decide (room_id = k)) as [->|Hne].
      * rewrite lookup_insert_eq. eexists. split; [done|].
        assert (r0 = r) as -> by congruence.
        unfold room_step. cbn [video_hash filename host_sid client_sid].
        split; [done|]. split; [done|]. split; [by left|].
        right. right. by exists sid, d.
      * rewrite lookup_insert_ne by done.
        exists r. split; [done|apply room_step_refl].
  - pose proof (handle_control_cases sid d w) as H.
    rewrite Hrun in H. right.
    destruct H as [_ [->|(room_id & r0 & (_ & Hr0 & _) & _ & ->)]].
    + exists r. split; [done|apply room_step_refl].
    + destruct (decide (room_id = k)) as [->|Hne].
      * rewrite lookup_insert_eq. eexists. split; [done|].
        assert (r0 = r) as -> by congruence.
        unfold room_step. cbn [video_hash filename host_sid client_sid].
        naive_solver.
      * rewrite lookup_insert_ne by done.
        exists r. split; [done|apply room_step_refl].
  - pose proof (handle_state_update_cases sid d w) as H.
    rewrite Hrun in H. right.
    destruct H as [_ [->|(room_id & r0 & (_ & Hr0 & _) & _ & ->)]].
    + exists r. split; [done|apply room_step_refl].
    + destruct (decide (room_id = k)) as [->|Hne].
      * rewrite lookup_insert_eq. eexists. split; [done|].
        assert (r0 = r) as -> by congruence.
        unfold room_step. cbn [video_hash filename host_sid client_sid].
        naive_solver.
      * rewrite lookup_insert_ne by done.
        exists r. split; [done|apply room_step_refl].
  - destruct (handle_signal_cases "offer" "offer" sid d w) as (new & Hrun' & _).
    unfold handle_offer in Hrun. rewrite Hrun' in Hrun. injection Hrun as <-.
    right. exists r. split; [done|apply room_step_refl].
  - destruct (handle_signal_cases "answer" "answer" sid d w) as (new & Hrun' & _).
    unfold handle_answer in Hrun. rewrite Hrun' in Hrun. injection Hrun as <-.
    right. exists r. split; [done|apply room_step_refl].
  - destruct (handle_signal_cases "ice_candidate" "candidate" sid d w)
      as (new & Hrun' & _).
    unfold handle_ice_candidate in Hrun. rewrite Hrun' in Hrun.
    injection Hrun as <-.
    right. exists r. split; [done|apply room_step_refl].
  - pose proof (handle_chat_message_cases sid d w) as H.
    rewrite Hrun in H. right. exists r. split; [|apply room_step_refl].
    by destruct H as [[-> _]|(room_id & r0 & _ & _ & ->)].
  - destruct (handle_disconnect_spec sid w) as (w1 & Hrun1 & _ & _ & _ & _ & _ & _ & _ & Hin).
    rewrite Hrun1 in Hrun. injection Hrun as <-. right.
    destruct (Hin k r Hk) as (r' & Hr' & Hh & Hc & Hv & Hf & _).
    exists r'. split; [done|]. unfold room_step.
    split; [done|]. split; [done|].
    rewrite Hh, Hc.
    split; [destruct (decide (host_sid r = Some sid))
           |destruct (decide (client_sid r = Some sid))]; auto.
  - destruct (cleanup_worker_spec w) as (w1 & Hrun1 & Hrooms & _).
    rewrite Hrun1 in Hrun. injection Hrun as <-.
    rewrite Hrooms, Hk. destruct (cleanup_marks _ r).
    + by left.
    + right. exists r. split; [done|apply room_step_refl].
Qed.

Lemma dispatch_room_new fuel i w w' k r' :
  dispatch fuel i w = Returns (tt, w') →
  rooms w !! k = None →
  rooms w' !! k = Some r' →
  ∃ sid data vhash fname n,
    i = OnCreateRoom sid data ∧
    truthy (cr_video_hash data) = Some vhash ∧
    truthy (cr_filename data) = Some fname ∧
    (draws w ≤ n < draws w')%nat ∧ k = tokens w n ∧
    r' = mkRoom (Some sid) None vhash fname (mkState 0%float true)
                (clock w (ticks w)).
Proof.
  intros Hrun Hk Hk'.
  destruct i as [sid d|sid d|sid d|sid d|sid d|sid d|sid d|sid d|sid|];
    cbn [dispatch] in Hrun.
  - pose proof (handle_create_room_cases fuel sid d w) as H.
    rewrite Hrun in H.
    destruct H as [(Hsame & _)|(room_id & vhash & fname & n & Hv & Hf & Hfree & Hn & Hid & _ & Hrooms & _)].
    + rewrite Hsame in Hk'. congruence.
    + rewrite Hrooms in Hk'. destruct (decide (room_id = k)) as [->|Hne].
      * rewrite lookup_insert_eq in Hk'. injection Hk' as <-.
        by exists sid, d, vhash, fname, n.
      * rewrite lookup_insert_ne in Hk' by done. congruence.
  - pose proof (handle_join_room_cases sid d w) as H.
    rewrite Hrun in H.
    destruct H as [_ [Hsame|(room_id & r0 & (_ & Hr0 & _) & _ & _ & Hrooms)]].
    + rewrite Hsame in Hk'. congruence.
    + rewrite Hrooms, lookup_insert_ne in Hk'; congruence.
  - pose proof (handle_control_cases sid d w) as H.
    rewrite Hrun in H.
    destruct H as [_ [->|(room_id & r0 & (_ & Hr0 & _) & _ & Hrooms)]];
      [congruence|].
    rewrite Hrooms, lookup_insert_ne in Hk'; congruence.
  - pose proof (handle_state_update_cases sid d w) as H.
    rewrite Hrun in H.
    destruct H as [_ [->|(room_id & r0 & (_ & Hr0 & _) & _ & Hrooms)]];
      [congruence|].
    rewrite Hrooms, lookup_insert_ne in Hk'; congruence.
  - destruct (handle_signal_cases "offer" "offer" sid d w) as (new & Hrun' & _).
    unfold handle_offer in Hrun. rewrite Hrun' in Hrun. injection Hrun as <-.
    cbn [rooms with_outbox] in Hk'. congruence.
  - destruct (handle_signal_cases "answer" "answer" sid d w) as (new & Hrun' & _).
    unfold handle_answer in Hrun. rewrite Hrun' in Hrun. injection Hrun as <-.
    cbn [rooms with_outbox] in Hk'. congruence.
  - destruct (handle_signal_cases "ice_candidate" "candidate" sid d w)
      as (new & Hrun' & _).
    unfold handle_ice_candidate in Hrun. rewrite Hrun' in Hrun.
    injection Hrun as <-.
    cbn [rooms with_outbox] in Hk'. congruence.
  - pose proof (handle_chat_message_cases sid d w) as H.
    rewrite Hrun in H.
    destruct H as [[-> _]|(room_id & r0 & _ & _ & ->)];
      cbn [rooms with_outbox] in Hk'; congruence.
  - destruct (handle_disconnect_spec sid w)
      as (w1 & Hrun1 & _ & _ & _ & _ & _ & _ & Hnone & _).
    rewrite Hrun1 in Hrun. injection Hrun as <-.
    rewrite (Hnone k Hk) in Hk'. congruence.
  - destruct (cleanup_worker_spec w) as (w1 & Hrun1 & Hrooms & _).
    rewrite Hrun1 in Hrun. injection Hrun as <-.
    rewrite Hrooms, Hk in Hk'. congruence.
Qed.

(** *** The token source *)

Section TokenFrame.
Context (P : World -> Prop).
Context (HP : ∀ w w', P w → tokens w' = tokens w → draws w' = draws w → P w').

Lemma preserves_frame_emit event data to : preserves P (emit event data to).
Proof. intros w a w' Hw [= _ <-]. by apply (HP w). Qed.

Lemma preserves_frame_join_room sid room_id : preserves P (join_room sid room_id).
Proof. intros w a w' Hw [= _ <-]. by apply (HP w). Qed.

Lemma preserves_frame_time_time : preserves P time_time.
Proof. intros w a w' Hw [= _ <-]. by apply (HP w). Qed.

Lemma preserves_frame_get_rooms : preserves P get_rooms.
Proof. intros w a w' Hw [= _ <-]. done. Qed.

Lemma preserves_frame_rooms_getitem room_id : preserves P (rooms_getitem room_id).
Proof.
  intros w a w' Hw. unfold rooms_getitem.
  destruct (rooms w !! room_id); [|done]. by intros [= _ <-].
Qed.

Lemma preserves_frame_rooms_setitem room_id f :
  preserves P (rooms_setitem room_id f).
Proof.
  intros w a w' Hw. unfold rooms_setitem.
  destruct (rooms w !! room_id); [|done]. intros [= _ <-]. by apply (HP w).
Qed.
End TokenFrame.

Ltac keep_frame HP :=
  repeat first
    [ apply preserves_ret
    | apply (preserves_frame_emit _ HP)
    | apply (preserves_frame_join_room _ HP)
    | apply (preserves_frame_time_time _ HP)
    | apply preserves_frame_get_rooms
    | apply preserves_frame_rooms_getitem
    | apply (preserves_frame_rooms_setitem _ HP)
    | apply preserves_with_lock
    | apply preserves_bind; [|intros ?]
    | case_decide
    | match goal with
      | |- preserves _ (match truthy ?v with _ => _ end) =>
          destruct (truthy v)
      end ].

Lemma dispatch_tokens_from fuel i w w' :
  dispatch fuel i w = Returns (tt, w') → tokens_from w w'.
Proof.
  intros Hrun.
  assert (HP : ∀ w1 w2, tokens_from w w1 →
            tokens w2 = tokens w1 → draws w2 = draws w1 → tokens_from w w2).
  { intros w1 w2 [Ht Hd] Ht2 Hd2. split; [congruence|lia]. }
  assert (H0 : tokens_from w w) by done.
  destruct i as [sid d|sid d|sid d|sid d|sid d|sid d|sid d|sid d|sid|];
    cbn [dispatch] in Hrun.
  - pose proof (handle_create_room_cases fuel sid d w) as H.
    rewrite Hrun in H.
    destruct H as [(_ & _ & Ht & Hd)|(room_id & vhash & fname & n & _ & _ & _ & Hn & _ & Ht & _)];
      split; (done || lia).
  - apply (λ Hp : preserves (tokens_from w) _, Hp w tt w' H0 Hrun). unfold handle_join_room.
    keep_frame HP.
  - apply (λ Hp : preserves (tokens_from w) _, Hp w tt w' H0 Hrun). unfold handle_control.
    keep_frame HP.
  - apply (λ Hp : preserves (tokens_from w) _, Hp w tt w' H0 Hrun). unfold handle_state_update.
    keep_frame HP.
  - apply (λ Hp : preserves (tokens_from w) _, Hp w tt w' H0 Hrun).
    unfold handle_offer, handle_signal, route_to_peer. keep_frame HP.
  - apply (λ Hp : preserves (tokens_from w) _, Hp w tt w' H0 Hrun).
    unfold handle_answer, handle_signal, route_to_peer. keep_frame HP.
  - apply (λ Hp : preserves (tokens_from w) _, Hp w tt w' H0 Hrun).
    unfold handle_ice_candidate, handle_signal, route_to_peer. keep_frame HP.
  - apply (λ Hp : preserves (tokens_from w) _, Hp w tt w' H0 Hrun). unfold handle_chat_message.
    keep_frame HP.
  - destruct (handle_disconnect_spec sid w)
      as (w1 & Hrun1 & _ & _ & _ & Ht & Hd & _).
    rewrite Hrun1 in Hrun. injection Hrun as <-. split; [done|lia].
  - destruct (cleanup_worker_spec w)
      as (w1 & Hrun1 & _ & _ & _ & _ & _ & Ht & Hd).
    rewrite Hrun1 in Hrun. injection Hrun as <-. split; [done|lia].
Qed.

(** *** The life of a room *)

Lemma room_step_kept i r r' : room_step i r r' → room_kept r r'.
Proof. intros (Hv & Hf & Hh & _). done. Qed.

Lemma room_kept_trans r1 r2 r3 :
  room_kept r1 r2 → room_kept r2 r3 → room_kept r1 r3.
Proof.
  intros (Hv1 & Hf1 & Hh1) (Hv2 & Hf2 & Hh2). unfold room_kept.
  split; [congruence|]. split; [congruence|].
  destruct Hh1 as [Hh1|Hh1], Hh2 as [Hh2|Hh2]; [left|right|right|right];
    congruence.
Qed.

(** X8 (only the sweep removes a room): along every sequence of events
    that contains no turn of the cleanup loop, a room that is in [rooms]
    stays in [rooms], whatever the events are and whoever sends them; its
    video_hash and filename never change, and its host slot is only ever
    emptied, never filled again. *)
Theorem rooms_outlive_every_event fuel trace w w' k r :
  Forall (λ i, i ≠ CleanupTurn) trace →
  run fuel trace w = Returns (tt, w') →
  rooms w !! k = Some r →
  ∃ r', rooms w' !! k = Some r' ∧ room_kept r r'.
Proof.
  unfold run. intros Htrace. revert w r.
  induction Htrace as [|i trace Hi Htrace IH]; intros w r Hrun Hk.
  - cbn [for_each] in Hrun. injection Hrun as <-. exists r.
    split; [done|]. unfold room_kept. auto.
  - cbn [for_each] in Hrun. unfold bind in Hrun.
    destruct (dispatch fuel i w) as [[[] w1]| |] eqn:Hstep; [|done..].
    destruct (dispatch_room_step fuel i w w1 k r Hstep Hk)
      as [[-> _]|(r1 & Hk1 & Hstep1)]; [done|].
    destruct (IH w1 r1 Hrun Hk1) as (r' & Hk' & Hkept).
    exists r'. split; [done|].
    eapply room_kept_trans; [by eapply room_step_kept|done].
Qed.

Lemma rooms_outlive_every_event_witness :
  ∃ r', rooms demo_left_world !! demo_id = Some r' ∧ room_kept demo_room r'.
Proof.
  apply (rooms_outlive_every_event 0 [OnDisconnect "H"] demo_world
           demo_left_world demo_id demo_room).
  - repeat constructor. discriminate.
  - vm_compute. reflexivity.
  - apply lookup_singleton_eq.
Defined.

(** X9 (rooms are born in create_room only): when a key is in [rooms]
    after an input and was not before, the input is a create_room with a
    non-empty hash and filename, the key is a token drawn during it, and
    the room is the fresh one: the sender as host, no client, that hash
    and filename, state [{0.0, True}].  No other event, whatever room id
    it carries, adds a room. *)
Theorem rooms_are_born_in_create_room fuel i w w' k r' :
  dispatch fuel i w = Returns (tt, w') →
  rooms w !! k = None →
  rooms w' !! k = Some r' →
  ∃ sid data vhash fname n,
    i = OnCreateRoom sid data ∧
    truthy (cr_video_hash data) = Some vhash ∧
    truthy (cr_filename data) = Some fname ∧
    (draws w ≤ n < draws w')%nat ∧ k = tokens w n ∧
    r' = mkRoom (Some sid) None vhash fname (mkState 0%float true)
                (clock w (ticks w)).
Proof. apply dispatch_room_new. Qed.

Lemma rooms_are_born_in_create_room_witness :
  ∃ sid data vhash fname n,
    OnCreateRoom "H" (mkCreate (Some "abc123") (Some "movie.mp4"))
      = OnCreateRoom sid data ∧
    truthy (cr_video_hash data) = Some vhash ∧
    truthy (cr_filename data) = Some fname ∧
    (0 ≤ n < 1)%nat ∧ demo_id = demo_tokens n ∧
    mkRoom (Some "H") None "abc123" "movie.mp4" (mkState 0%float true) 1000%float
      = mkRoom (Some sid) None vhash fname (mkState 0%float true) 1000%float.
Proof.
  apply (rooms_are_born_in_create_room 0
           (OnCreateRoom "H" (mkCreate (Some "abc123") (Some "movie.mp4")))
           (boot demo_clock demo_tokens)
           (mkWorld
              {[ demo_id := mkRoom (Some "H") None "abc123" "movie.mp4"
                              (mkState 0%float true) 1000%float ]}
              {[ demo_id ]}
              [JoinRoom "H" demo_id;
               Emit "room_created" (RoomCreated demo_id "movie.mp4") "H"]
              demo_clock 1 demo_tokens 1)
           demo_id).
  - vm_compute. reflexivity.
  - apply lookup_empty.
  - apply lookup_singleton_eq.
Defined.

(** X10 (the client slot is bound by a matching join only): when after an
    input the client slot of a room holds a connection it did not hold
    before, the input is a join_room sent by that connection, the slot was
    empty, and the join carried the room's video_hash. *)
Theorem client_slot_bound_only_by_join fuel i w w' k r r' c :
  dispatch fuel i w = Returns (tt, w') →
  rooms w !! k = Some r →
  rooms w' !! k = Some r' →
  client_sid r' = Some c →
  client_sid r ≠ Some c →
  ∃ data, i = OnJoinRoom c data ∧ client_sid r = None ∧
          jn_video_hash data = Some (video_hash r).
Proof.
  intros Hrun Hk Hk' Hc Hne.
  destruct (dispatch_room_step fuel i w w' k r Hrun Hk)
    as [[_ Hgone]|(r1 & Hk1 & _ & _ & _ & Hclient)]; [congruence|].
  assert (r1 = r') as -> by congruence.
  destruct Hclient as [Hsame|[Hnone|(sid & data & -> & Hempty & Hsid & Hv)]];
    [congruence..|].
  exists data. assert (sid = c) as -> by congruence. done.
Qed.

Lemma client_slot_bound_only_by_join_witness :
  ∃ data, OnJoinRoom "C" (mkJoin (Some demo_id) (Some "abc123"))
            = OnJoinRoom "C" data ∧
          client_sid demo_room = None ∧
          jn_video_hash data = Some (video_hash demo_room).
Proof.
  apply (client_slot_bound_only_by_join 0
           (OnJoinRoom "C" (mkJoin (Some demo_id) (Some "abc123")))
           demo_world
           (mkWorld
              {[ demo_id := mkRoom (Some "H") (Some "C") "abc123" "movie.mp4"
                              (mkState 12.5%float false) 1003%float ]}
              {[ demo_id ]}
              [JoinRoom "C" demo_id;
               Emit "sync_state" (StateDict (mkState 12.5%float false)) "C";
               Emit "peer_joined" (Message "Peer joined") "H";
               Emit "ready_for_call" NoData demo_id]
              demo_clock 4 demo_tokens 1)
           demo_id demo_room
           (mkRoom (Some "H") (Some "C") "abc123" "movie.mp4"
                   (mkState 12.5%float false) 1003%float) "C").
  - vm_compute. reflexivity.
  - apply lookup_singleton_eq.
  - apply lookup_singleton_eq.
  - reflexivity.
  - discriminate.
Defined.

Lemma preserves_rooms_well_formed fuel i :
  preserves rooms_well_formed (dispatch fuel i).
Proof.
  intros w [] w' Hwf Hrun k r' Hk'.
  destruct (dispatch_tokens_from fuel i w w' Hrun) as [Htok Hdraws].
  destruct (rooms w !! k) as [r|] eqn:Hk.
  - destruct (dispatch_room_step fuel i w w' k r Hrun Hk)
      as [[_ Hgone]|(r1 & Hk1 & Hv & Hf & _)]; [congruence|].
    assert (r1 = r') as -> by congruence.
    destruct (Hwf k r Hk) as ((n & Hn & Hid) & Hvh & Hfn).
    split; [|split; congruence].
    exists n. split; [lia|congruence].
  - destruct (dispatch_room_new fuel i w w' k r' Hrun Hk Hk')
      as (sid & data & vhash & fname & n & _ & Hv & Hf & Hn & Hid & ->).
    apply truthy_inv in Hv as [_ Hv]. apply truthy_inv in Hf as [_ Hf].
    split; [|done]. exists n. split; [lia|congruence].
Qed.

(** X11 (room ids and metadata on a running server): in every state
    reached from the empty server, each key of [rooms] is one of the tokens
    drawn so far from the token source, never a string taken from a
    payload, and each room's video_hash and filename are non-empty. *)
Theorem reachable_rooms_well_formed w : reachable w → rooms_well_formed w.
Proof.
  intros (clk & tok & fuel & trace & Hrun).
  eapply (preserves_for_each rooms_well_formed trace (dispatch fuel));
    [apply preserves_rooms_well_formed| |exact Hrun].
  intros k r Hk. unfold boot in Hk. cbn [rooms] in Hk.
  by rewrite lookup_empty in Hk.
Qed.

Lemma reachable_rooms_well_formed_witness : rooms_well_formed self_paired_world.
Proof.
  apply (reachable_rooms_well_formed self_paired_world).
  exact self_paired_reachable.
Defined.

(** *** Leaving *)

(** X12 (disconnect, then the sweep): when the connection that leaves is
    the only one in a room (each slot is empty or holds it), the next turn
    of the cleanup loop deletes the room and its lock, however recent the
    room's last activity is. *)
Theorem last_peer_leaves_then_sweep w sid k r :
  rooms w !! k = Some r →
  host_sid r = None ∨ host_sid r = Some sid →
  client_sid r = None ∨ client_sid r = Some sid →
  ∃ w1 w2,
    handle_disconnect sid w = Returns (tt, w1) ∧
    is_Some (rooms w1 !! k) ∧
    cleanup_worker w1 = Returns (tt, w2) ∧
    rooms w2 !! k = None ∧
    k ∉ room_locks w2.
Proof.
  intros Hk Hh Hc.
  destruct (handle_disconnect_spec sid w)
    as (w1 & Hrun1 & _ & _ & _ & _ & _ & _ & _ & Hin).
  destruct (Hin k r Hk) as (r1 & Hk1 & Hh1 & Hc1 & _).
  destruct (cleanup_worker_spec w1) as (w2 & Hrun2 & Hrooms & Hlocks & _).
  exists w1, w2. split; [done|]. split; [eauto|]. split; [done|].
  assert (Hgone : rooms w2 !! k = None).
  { rewrite Hrooms, Hk1. unfold cleanup_marks. rewrite Hh1, Hc1.
    destruct Hh as [->| ->], Hc as [->| ->];
      repeat (case_decide; try done). }
  split; [done|]. intros [_ Heq]%Hlocks. congruence.
Qed.

Lemma last_peer_leaves_then_sweep_witness :
  ∃ w1 w2,
    handle_disconnect "H" demo_world = Returns (tt, w1) ∧
    is_Some (rooms w1 !! demo_id) ∧
    cleanup_worker w1 = Returns (tt, w2) ∧
    rooms w2 !! demo_id = None ∧
    demo_id ∉ room_locks w2.
Proof.
  apply (last_peer_leaves_then_sweep demo_world "H" demo_id demo_room).
  - apply lookup_singleton_eq.
  - right. reflexivity.
  - left. reflexivity.
Defined.

(** X13 (disconnect is complete and idempotent): after
    [handle_disconnect sid] no slot of any room holds [sid]; a second
    disconnect of the same connection returns and leaves [rooms] exactly as
    the first one left it. *)
Theorem disconnect_twice w sid :
  ∃ w1 w2,
    handle_disconnect sid w = Returns (tt, w1) ∧
    (∀ k r, rooms w1 !! k = Some r →
            host_sid r ≠ Some sid ∧ client_sid r ≠ Some sid) ∧
    handle_disconnect sid w1 = Returns (tt, w2) ∧
    rooms w2 = rooms w1.
Proof.
  destruct (handle_disconnect_spec sid w)
    as (w1 & Hrun1 & _ & _ & _ & _ & _ & _ & Hnone1 & Hin1).
  destruct (handle_disconnect_spec sid w1)
    as (w2 & Hrun2 & _ & _ & _ & _ & _ & _ & Hnone2 & Hin2).
  assert (Hclear : ∀ k r, rooms w1 !! k = Some r →
            host_sid r ≠ Some sid ∧ client_sid r ≠ Some sid).
  { intros k r1 Hk1. destruct (rooms w !! k) as [r|] eqn:Hk.
    - destruct (Hin1 k r Hk) as (r1' & Hk1' & Hh & Hc & _).
      assert (r1' = r1) as -> by congruence. rewrite Hh, Hc.
      split; [destruct (decide (host_sid r = Some sid))
             |destruct (decide (client_sid r = Some sid))]; congruence.
    - rewrite (Hnone1 k Hk) in Hk1. congruence. }
  exists w1, w2. split; [done|]. split; [done|]. split; [done|].
  apply map_eq. intros k. destruct (rooms w1 !! k) as [r1|] eqn:Hk1.
  - destruct (Hin2 k r1 Hk1) as (r2 & Hk2 & _ & _ & _ & _ & _ & _ & Hsame).
    destruct (Hclear k r1 Hk1) as [Hh Hc]. by rewrite Hk2, (Hsame Hh Hc).
  - by apply Hnone2.
Qed.

(** X14 (the client slot can be taken again): when the client of a room
    disconnects, a join_room with the room's video_hash by any connection
    succeeds afterwards and binds the client slot to it. *)
Theorem client_slot_reused_after_disconnect w c joiner k r :
  room_at w k r →
  client_sid r = Some c →
  ∃ w1 w2 r2,
    handle_disconnect c w = Returns (tt, w1) ∧
    handle_join_room joiner (mkJoin (Some k) (Some (video_hash r))) w1
      = Returns (tt, w2) ∧
    rooms w2 !! k = Some r2 ∧
    client_sid r2 = Some joiner ∧
    host_sid r2 = (if decide (host_sid r = Some c) then None else host_sid r) ∧
    state r2 = state r.
Proof.
  intros (Hne & Hk & Hl) Hc.
  destruct (handle_disconnect_spec c w)
    as (w1 & Hrun1 & Hlk1 & _ & _ & _ & _ & _ & _ & Hin).
  destruct (Hin k r Hk) as (r1 & Hk1 & Hh1 & Hc1 & Hv1 & _ & Hs1 & _).
  rewrite Hc, decide_True in Hc1 by done.
  assert (Hat1 : room_at w1 k r1).
  { split; [done|]. split; [done|]. by rewrite Hlk1. }
  exists w1. eexists _, _. split; [done|]. split.
  - apply (handle_join_room_at w1 joiner _ k r1); [done..|].
    cbn [jn_video_hash]. by rewrite Hv1.
  - cbn [rooms]. rewrite lookup_insert_eq. done.
Qed.

Lemma client_slot_reused_after_disconnect_witness :
  ∃ w1 w2 r2,
    handle_disconnect "C" full_world = Returns (tt, w1) ∧
    handle_join_room "D" (mkJoin (Some demo_id) (Some (video_hash full_room))) w1
      = Returns (tt, w2) ∧
    rooms w2 !! demo_id = Some r2 ∧
    client_sid r2 = Some "D" ∧
    host_sid r2 = (if decide (host_sid full_room = Some "C")
                   then None else host_sid full_room) ∧
    state r2 = state full_room.
Proof.
  apply (client_slot_reused_after_disconnect full_world "C" "D" demo_id full_room).
  - exact full_room_at.
  - reflexivity.
Defined.

(** *** Payloads with missing fields *)

(** X15 (defaults for missing fields): a control without ['time'] keeps
    the position of the room (the default is read from the room) while
    still applying its action, refreshing last_active and notifying the
    peer; a state_update without ['time'] and ['paused'] sets the state to
    [{0.0, True}], whatever it was. *)
Theorem missing_fields_take_defaults :
  (∀ w sid d k r,
     ct_room_id d = Some k → room_at w k r → ct_time d = None →
     ∃ w' r',
       handle_control sid d w = Returns (tt, w') ∧
       rooms w' !! k = Some r' ∧
       time (state r') = time (state r) ∧
       last_active r' = clock w (ticks w) ∧
       outbox w' = outbox w ++
         to_peer (peer_target sid r) "sync_state" (StateDict (state r'))) ∧
  (∀ w sid d k r,
     su_room_id d = Some k → room_at w k r →
     su_time d = None → su_paused d = None →
     ∃ w' r',
       handle_state_update sid d w = Returns (tt, w') ∧
       rooms w' !! k = Some r' ∧
       state r' = mkState 0%float true ∧
       outbox w' = outbox w ++
         to_peer (peer_target sid r) "sync_state"
           (StateDict (mkState 0%float true))).
Proof.
  split.
  - intros w sid d k r Hid Hat Ht. eexists _, _.
    split; [by apply (handle_control_at _ _ _ k r)|].
    cbn [rooms outbox]. rewrite lookup_insert_eq. split; [done|].
    unfold control_write. rewrite Ht. done.
  - intros w sid d k r Hid Hat Ht Hp. eexists _, _.
    split; [by apply (handle_state_update_at _ _ _ k r)|].
    cbn [rooms outbox]. rewrite lookup_insert_eq. split; [done|].
    unfold heartbeat_write. rewrite Ht, Hp. done.
Qed.

Lemma missing_fields_take_defaults_witness :
  ∃ w' r',
    handle_state_update "H" (mkStateUpdate (Some demo_id) None None) demo_world
      = Returns (tt, w') ∧
    rooms w' !! demo_id = Some r' ∧
    state r' = mkState 0%float true ∧
    outbox w' = outbox demo_world ++
      to_peer (peer_target "H" demo_room) "sync_state"
        (StateDict (mkState 0%float true)).
Proof.
  apply (proj2 missing_fields_take_defaults demo_world "H"
           (mkStateUpdate (Some demo_id) None None) demo_id demo_room).
  - reflexivity.
  - exact demo_room_at.
  - reflexivity.
  - reflexivity.
Defined.

(** *** The sweep and the locks *)

(** X16 (the sweep keeps the two dictionaries in step): one turn of the
    cleanup loop reads the clock once and emits nothing; the lock of every
    room it deletes is deleted with it and no other lock is; when every
    room had its lock before, every room has its lock after; and the rooms
    it leaves are occupied and not expired. *)
Theorem cleanup_worker_locks_follow_rooms w :
  ∃ w',
    cleanup_worker w = Returns (tt, w') ∧
    outbox w' = outbox w ∧
    ticks w' = S (ticks w) ∧
    (∀ k, is_Some (rooms w !! k) → rooms w' !! k = None → k ∉ room_locks w') ∧
    (∀ k, k ∈ room_locks w → rooms w' !! k = rooms w !! k → k ∈ room_locks w') ∧
    (∀ k, k ∈ room_locks w' → k ∈ room_locks w) ∧
    (locks_cover_rooms w → locks_cover_rooms w') ∧
    (∀ k r, rooms w' !! k = Some r →
            ¬ abandoned r ∧ ¬ expired (clock w (ticks w)) r).
Proof.
  destruct (cleanup_worker_spec w)
    as (w' & Hrun & Hrooms & Hlocks & Hout & _ & Hticks & _).
  exists w'. split; [done|]. split; [done|]. split; [done|].
  split; [|split; [|split; [|split]]].
  - intros k [r Hk] Hgone [_ Heq]%Hlocks. congruence.
  - intros k Hl Heq. by apply Hlocks.
  - by intros k [? _]%Hlocks.
  - intros Hcover k Hk. apply Hlocks.
    assert (Heq : rooms w' !! k = rooms w !! k).
    { destruct Hk as [r Hk]. rewrite Hrooms in Hk |- *.
      destruct (rooms w !! k) as [r0|]; [|done].
      by destruct (cleanup_marks _ r0). }
    split; [|done]. apply Hcover. by rewrite <- Heq.
  - intros k r Hk. rewrite Hrooms in Hk.
    destruct (rooms w !! k) as [r0|]; [|done].
    destruct (cleanup_marks _ r0) eqn:Hm; [done|]. injection Hk as ->.
    assert (Hno : ¬ (abandoned r ∨ expired (clock w (ticks w)) r)).
    { intros H%cleanup_marks_spec. congruence. }
    split; intros ?; apply Hno; auto.
Qed.

(** *** A paired room *)

(** X17 (the two peers of a room reach each other): after a create_room by
    [host] and a join_room by another connection [client] with the same
    hash, a control from the host is delivered to the client and to nobody
    else, a control from the client to the host and to nobody else, and
    the same holds for an offer and its answer. *)
Theorem paired_peers_reach_each_other fuel w host client cdata vhash fname :
  cr_video_hash cdata = Some vhash → vhash ≠ "" →
  cr_filename cdata = Some fname → fname ≠ "" →
  host ≠ "" → client ≠ "" → host ≠ client →
  tokens w (draws w) ≠ "" →
  rooms w !! tokens w (draws w) = None →
  ∃ w1 w2,
    handle_create_room fuel host cdata w = Returns (tt, w1) ∧
    handle_join_room client (mkJoin (Some (tokens w (draws w))) (Some vhash)) w1
      = Returns (tt, w2) ∧
    (∀ d, ct_room_id d = Some (tokens w (draws w)) →
       ∃ w3, handle_control host d w2 = Returns (tt, w3) ∧
             outbox w3 = outbox w2 ++
               [Emit "sync_state"
                  (StateDict (control_write d (mkState 0%float true))) client]) ∧
    (∀ d, ct_room_id d = Some (tokens w (draws w)) →
       ∃ w3, handle_control client d w2 = Returns (tt, w3) ∧
             outbox w3 = outbox w2 ++
               [Emit "sync_state"
                  (StateDict (control_write d (mkState 0%float true))) host]) ∧
    (∀ d, sg_room_id d = Some (tokens w (draws w)) →
       handle_offer host d w2 =
       Returns (tt, with_outbox
         (outbox w2 ++ [Emit "offer"
            (Signal (tokens w (draws w)) "offer" (sg_value d)) client]) w2)) ∧
    (∀ d, sg_room_id d = Some (tokens w (draws w)) →
       handle_answer client d w2 =
       Returns (tt, with_outbox
         (outbox w2 ++ [Emit "answer"
            (Signal (tokens w (draws w)) "answer" (sg_value d)) host]) w2)).
Proof.
  intros Hv Hvn Hf Hfn Hh Hc Hhc Htok Hfresh.
  set (k := tokens w (draws w)) in *.
  set (r1 := mkRoom (Some host) None vhash fname (mkState 0%float true)
                    (clock w (ticks w))).
  eexists _, _. split.
  { by apply (handle_create_room_fresh _ _ _ _ vhash fname). }
  split.
  { apply (handle_join_room_at _ _ _ k r1); [done| |done|done].
    split; [done|]. cbn [rooms room_locks]. split.
    - apply lookup_insert_eq.
    - set_solver. }
  set (r2 := mkRoom (Some host) (Some client) vhash fname (mkState 0%float true)
                    (clock w (S (ticks w)))).
  match goal with
  | |- context [handle_control host _ ?x] => set (w2 := x)
  end.
  assert (Hat : room_at w2 k r2).
  { split; [done|]. cbn [rooms room_locks w2]. split.
    - apply lookup_insert_eq.
    - set_solver. }
  assert (Hto_client : truthy (peer_target host r2) = Some client).
  { unfold peer_target. cbn [host_sid client_sid r2].
    rewrite decide_True by done. by apply truthy_Some. }
  assert (Hto_host : truthy (peer_target client r2) = Some host).
  { unfold peer_target. cbn [host_sid client_sid r2].
    rewrite decide_False by congruence. by apply truthy_Some. }
  split; [|split; [|split]].
  - intros d Hid. eexists.
    split; [by apply (handle_control_at _ _ _ k r2)|].
    cbn [outbox]. unfold to_peer. by rewrite Hto_client.
  - intros d Hid. eexists.
    split; [by apply (handle_control_at _ _ _ k r2)|].
    cbn [outbox]. unfold to_peer. by rewrite Hto_host.
  - intros d Hid. destruct Hat as (? & Hk2 & _). unfold handle_offer.
    rewrite (handle_signal_at _ _ _ _ _ k r2) by done.
    unfold to_peer. by rewrite Hto_client.
  - intros d Hid. destruct Hat as (? & Hk2 & _). unfold handle_answer.
    rewrite (handle_signal_at _ _ _ _ _ k r2) by done.
    unfold to_peer. by rewrite Hto_host.
Qed.

Lemma paired_peers_reach_each_other_witness :
  ∃ w1 w2,
    handle_create_room 0 "H" (mkCreate (Some "abc123") (Some "movie.mp4"))
      (boot demo_clock demo_tokens) = Returns (tt, w1) ∧
    handle_join_room "C" (mkJoin (Some demo_id) (Some "abc123")) w1
      = Returns (tt, w2) ∧
    (∀ d, ct_room_id d = Some demo_id →
       ∃ w3, handle_control "H" d w2 = Returns (tt, w3) ∧
             outbox w3 = outbox w2 ++
               [Emit "sync_state"
                  (StateDict (control_write d (mkState 0%float true))) "C"]) ∧
    (∀ d, ct_room_id d = Some demo_id →
       ∃ w3, handle_control "C" d w2 = Returns (tt, w3) ∧
             outbox w3 = outbox w2 ++
               [Emit "sync_state"
                  (StateDict (control_write d (mkState 0%float true))) "H"]) ∧
    (∀ d, sg_room_id d = Some demo_id →
       handle_offer "H" d w2 =
       Returns (tt, with_outbox
         (outbox w2 ++ [Emit "offer" (Signal demo_id "offer" (sg_value d)) "C"])
         w2)) ∧
    (∀ d, sg_room_id d = Some demo_id →
       handle_answer "C" d w2 =
       Returns (tt, with_outbox
         (outbox w2 ++ [Emit "answer" (Signal demo_id "answer" (sg_value d)) "H"])
         w2)).
Proof.
  apply (paired_peers_reach_each_other 0 (boot demo_clock demo_tokens) "H" "C"
           (mkCreate (Some "abc123") (Some "movie.mp4")) "abc123" "movie.mp4");
    try reflexivity; try discriminate.
Defined.

(** *** One room at a time *)

Lemma handle_join_room_elsewhere sid data w w' k :
  handle_join_room sid data w = Returns (tt, w') →
  truthy (jn_room_id data) ≠ Some k →
  rooms w' !! k = rooms w !! k.
Proof.
  intros Hrun Hk.
  destruct (truthy (jn_room_id data)) as [room_id|] eqn:Ht.
  - apply truthy_inv in Ht as Hid. destruct Hid as [Hid Hne].
    destruct (rooms w !! room_id) as [r|] eqn:Hr.
    + destruct (decide (room_id ∈ room_locks w)) as [Hl|Hl].
      * assert (Hat : room_at w room_id r) by done.
        destruct (decide (client_sid r = None)) as [Hc|Hc].
        -- destruct (decide (jn_video_hash data = Some (video_hash r))) as [Hv|Hv].
           ++ rewrite (handle_join_room_at w sid data room_id r) in Hrun by done.
              injection Hrun as <-. cbn [rooms].
              rewrite lookup_insert_ne; [done|congruence].
           ++ rewrite (handle_join_room_mismatch w sid data room_id r) in Hrun
                by done.
              by injection Hrun as <-.
        -- rewrite (handle_join_room_full w sid data room_id r) in Hrun by done.
           by injection Hrun as <-.
      * unfold handle_join_room in Hrun.
        rewrite Ht in Hrun. revert Hrun. hsimpl.
        rewrite (if_in_rooms _ _ r) by done.
        by rewrite with_lock_missing by done.
    + unfold handle_join_room in Hrun. rewrite Ht in Hrun. revert Hrun.
      hsimpl. rewrite if_not_in_rooms by done. by intros [= <-].
  - unfold handle_join_room in Hrun. rewrite Ht in Hrun.
    by injection Hrun as <-.
Qed.

(** X18 (an event touches one room): when a join_room, control,
    state_update, offer, answer, ice_candidate or chat_message returns,
    every room other than the one its ['room_id'] names is exactly as
    before, and so is the set of locks. *)
Theorem room_events_touch_one_room fuel i w w' k :
  room_event i →
  dispatch fuel i w = Returns (tt, w') →
  event_room i ≠ Some k →
  rooms w' !! k = rooms w !! k ∧ room_locks w' = room_locks w.
Proof.
  intros Hev Hrun Hk.
  destruct i as [sid d|sid d|sid d|sid d|sid d|sid d|sid d|sid d|sid|];
    try done; cbn [dispatch event_room] in *.
  - split; [by eapply handle_join_room_elsewhere|].
    pose proof (handle_join_room_cases sid d w) as H. rewrite Hrun in H.
    by destruct H.
  - pose proof (handle_control_cases sid d w) as H. rewrite Hrun in H.
    destruct H as [Hl [->|(room_id & r & (Hne & _) & Hid & ->)]]; [done|].
    split; [|done]. rewrite lookup_insert_ne; [done|].
    intros ->. by rewrite Hid, truthy_Some in Hk.
  - pose proof (handle_state_update_cases sid d w) as H. rewrite Hrun in H.
    destruct H as [Hl [->|(room_id & r & (Hne & _) & Hid & ->)]]; [done|].
    split; [|done]. rewrite lookup_insert_ne; [done|].
    intros ->. by rewrite Hid, truthy_Some in Hk.
  - destruct (handle_signal_cases "offer" "offer" sid d w) as (new & Hrun' & _).
    unfold handle_offer in Hrun. rewrite Hrun' in Hrun. by injection Hrun as <-.
  - destruct (handle_signal_cases "answer" "answer" sid d w) as (new & Hrun' & _).
    unfold handle_answer in Hrun. rewrite Hrun' in Hrun. by injection Hrun as <-.
  - destruct (handle_signal_cases "ice_candidate" "candidate" sid d w)
      as (new & Hrun' & _).
    unfold handle_ice_candidate in Hrun. rewrite Hrun' in Hrun.
    by injection Hrun as <-.
  - pose proof (handle_chat_message_cases sid d w) as H. rewrite Hrun in H.
    by destruct H as [[-> _]|(room_id & r & _ & _ & ->)].
Qed.

Lemma room_events_touch_one_room_witness :
  rooms demo_paused_world !! "elsewhere" = rooms demo_world !! "elsewhere" ∧
  room_locks demo_paused_world = room_locks demo_world.
Proof.
  apply (room_events_touch_one_room 0
           (OnControl "X" (mkControl (Some demo_id) (Some "pause") (Some 42.5%float)))
           demo_world demo_paused_world "elsewhere").
  - exact I.
  - vm_compute. reflexivity.
  - vm_compute. discriminate.
Defined.
